(** * Resume ranker: text extraction, LLM services and the CSV report

    A shallow embedding of

    - [utils/file_utils.py]     ([extract_text_from_pdf],
                                 [extract_text_from_docx],
                                 [extract_text_from_file]),
    - [services/llm_service.py] ([call_gpt_api], [extract_job_criteria],
                                 [score_resume]),
    - [schemas/scoring_criteria.py] (the three pydantic models),
    - [routers/api.py]          ([extract_criteria], [score_resumes]),

    together with the parts of the Python runtime these functions lean
    on: insertion-ordered [dict], [str.lower], [str.endswith],
    [str.join], [str(int)], and [csv.DictWriter] with the default
    [excel] dialect.

    The PDF and DOCX parsers and the language-model provider are
    outside the repository.  They are taken as a record of
    collaborators; a run of the service is a computation over a trace
    of events (log records and calls to the collaborators) that either
    returns a value or raises. *)

From Stdlib Require Import ZArith List String Ascii Bool Lia.
From Stdlib Require Import DecimalString Permutation.
Import ListNotations.

Local Open Scope string_scope.
Local Open Scope Z_scope.

(* ================================================================= *)
(** ** Python strings *)

(** A Python [str] is carried as its UTF-8 byte string.  [bytes] values
    are lists of bytes. *)

Definition bytes := list Byte.byte.

Definition nl : string := String "010"%char EmptyString.
Definition cr : string := String "013"%char EmptyString.
Definition dq : string := String "034"%char EmptyString.

Module Str.

(** [str.lower], on the ASCII range.  Bytes of a multi-byte UTF-8
    sequence are left alone; the two tests made on a lowered name
    ([endswith('.pdf')], [endswith('.docx')]) look at ASCII letters
    only, and none of the letters of these suffixes is the lower case
    of a character outside ASCII. *)
Definition lower_char (c : ascii) : ascii :=
  let n := nat_of_ascii c in
  if (65 <=? n)%nat && (n <=? 90)%nat then ascii_of_nat (n + 32) else c.

Fixpoint lower (s : string) : string :=
  match s with
  | EmptyString => EmptyString
  | String c s' => String (lower_char c) (lower s')
  end.

(** [s.endswith(suffix)]: [s] is at least as long as [suffix] and its
    last [len(suffix)] characters are [suffix]. *)
Definition endswith (s suffix : string) : bool :=
  let n := String.length s in
  let m := String.length suffix in
  (m <=? n)%nat && String.eqb (substring (n - m) m s) suffix.

(** [sep.join(parts)] *)
Definition join (sep : string) (parts : list string) : string :=
  String.concat sep parts.

(** [str(n)] for an [int]. *)
Definition of_int (n : Z) : string :=
  NilZero.string_of_int (Z.to_int n).

(** [c in s] for a single character [c]. *)
Fixpoint contains (c : ascii) (s : string) : bool :=
  match s with
  | EmptyString => false
  | String c' s' => Ascii.eqb c' c || contains c s'
  end.

(** [x in l] for a list of strings. *)
Definition mem (x : string) (l : list string) : bool :=
  existsb (String.eqb x) l.

End Str.

(* ================================================================= *)
(** ** Python dictionaries with string keys *)

(** A [dict] keeps its keys in insertion order; assigning to a key that
    is already present replaces the value and leaves the key where it
    is. *)

Module Dict.
Section Dict.

Context {V : Type}.

Definition t : Type := list (string * V).

Definition empty : t := [].

(** [d[k] = v] *)
Fixpoint set (k : string) (v : V) (d : t) : t :=
  match d with
  | [] => [(k, v)]
  | (k', v') :: d' =>
      if String.eqb k' k then (k', v) :: d' else (k', v') :: set k v d'
  end.

(** [d.get(k)] *)
Fixpoint get (k : string) (d : t) : option V :=
  match d with
  | [] => None
  | (k', v') :: d' => if String.eqb k' k then Some v' else get k d'
  end.

(** [d.get(k, default)] *)
Definition get_default (k : string) (default : V) (d : t) : V :=
  match get k d with
  | Some v => v
  | None => default
  end.

Definition keys (d : t) : list string := map fst d.
Definition values (d : t) : list V := map snd d.
Definition items (d : t) : list (string * V) := d.

(** [d.update(kvs)], also the effect of [**kvs] inside a dict display
    and of a dict comprehension: the pairs are assigned left to
    right. *)
Definition update (d : t) (kvs : list (string * V)) : t :=
  fold_left (fun acc kv => set (fst kv) (snd kv) acc) kvs d.

End Dict.
Arguments t : clear implicits.
End Dict.

(* ================================================================= *)
(** ** schemas/scoring_criteria.py *)

Record Criteria := { criteria : list string }.

Record CriterionScore := { criterion : string; score : Z }.

Record ResumeScore := {
  candidate_name : string;
  criterion_scores : list CriterionScore
}.

(** The two classes passed as [response_format]. *)
Inductive response_format := CriteriaFormat | ResumeScoreFormat.

Definition shape (fmt : response_format) : Type :=
  match fmt with
  | CriteriaFormat => Criteria
  | ResumeScoreFormat => ResumeScore
  end.

(* ================================================================= *)
(** ** Exceptions, events and the service monad *)

(** The exceptions that leave the functions of the repository.
    [HTTPException] is the one the code raises itself; the others come
    from the runtime: [ValueError] from [csv.DictWriter] when a row has
    keys outside [fieldnames] (the payload lists them in the order of
    the row; the text of the message joins them in set order),
    [AttributeError] from reading a field of [None], [OpenAIError] from
    building a client without an API key. *)
Inductive exn :=
| HTTPException (status_code : Z) (detail : string)
| ValueError (wrong_fields : list string)
| AttributeError (name : string)
| OpenAIError.

(** What a call into a collaborator does: it raises, with the text
    [str(e)] of the exception, or it returns. *)
Inductive outcome (A : Type) :=
| Raised (e : string)
| Returned (a : A).
Arguments Raised {A} e.
Arguments Returned {A} a.

Inductive level := ERROR | INFO.

Inductive event :=
| Logged (lvl : level) (msg : string)
| PdfReaderCalled (file_bytes : bytes)
| DocumentCalled (file_bytes : bytes)
| ParseCalled (model : string) (messages : list (Dict.t string))
              (fmt : response_format).

(** The collaborators of the service.

    - [PdfReader file_bytes]: the texts of the pages, in page order
      ([page.extract_text() for page in pdf_reader.pages]);
    - [Document file_bytes]: the texts of the paragraphs, in document
      order ([para.text for para in doc.paragraphs]);
    - [OPENAI_API_KEY]: the process environment variable;
    - [parse history model messages fmt]: the provider's
      [chat.completions.parse] at temperature [0.0], returning
      [completion.choices[0].message.parsed], which is [None] when the
      model refuses.  The provider may answer differently from one call
      to the next, so it sees the events so far. *)
Record Env := {
  PdfReader : bytes -> outcome (list string);
  Document : bytes -> outcome (list string);
  OPENAI_API_KEY : option string;
  parse : list event -> string -> list (Dict.t string) ->
          forall fmt : response_format, outcome (option (shape fmt))
}.

(** A computation of the service: from the events so far to a result
    and the events after. *)
Definition M (A : Type) : Type := list event -> (exn + A) * list event.

Definition ret {A} (a : A) : M A := fun w => (inr a, w).

Definition bind {A B} (c : M A) (k : A -> M B) : M B :=
  fun w =>
    match c w with
    | (inl e, w') => (inl e, w')
    | (inr a, w') => k a w'
    end.

Definition raise {A} (e : exn) : M A := fun w => (inl e, w).

Definition emit (ev : event) : M unit := fun w => (inr tt, (w ++ [ev])%list).

Definition history : M (list event) := fun w => (inr w, w).

Declare Scope service_scope.
Delimit Scope service_scope with service.
Notation "x <- c ;; k" := (bind c (fun x => k))
  (at level 61, c at next level, right associativity) : service_scope.
Notation "c ;; k" := (bind c (fun _ => k))
  (at level 61, right associativity) : service_scope.
Local Open Scope service_scope.

Definition logging_error (msg : string) : M unit := emit (Logged ERROR msg).
Definition logging_info (msg : string) : M unit := emit (Logged INFO msg).

(** What the caller of an endpoint gets, and what stays on the
    server. *)
Definition result {A} (r : (exn + A) * list event) : exn + A := fst r.
Definition events {A} (r : (exn + A) * list event) : list event := snd r.

(* ================================================================= *)
(** ** utils/file_utils.py *)

Section FileUtils.

Variable env : Env.

Definition extract_text_from_pdf (file_bytes : bytes) : M string :=
  emit (PdfReaderCalled file_bytes) ;;
  match PdfReader env file_bytes with
  | Returned pages => ret (Str.join nl pages)
  | Raised e =>
      let error_message := "Error extracting text from PDF." in
      logging_error (error_message ++ " : " ++ e) ;;
      raise (HTTPException 500 error_message)
  end.

Definition extract_text_from_docx (file_bytes : bytes) : M string :=
  emit (DocumentCalled file_bytes) ;;
  match Document env file_bytes with
  | Returned paragraphs => ret (Str.join nl paragraphs)
  | Raised e =>
      let error_message := "Error extracting text from the document." in
      logging_error (error_message ++ " : " ++ e) ;;
      raise (HTTPException 500 error_message)
  end.

Definition extract_text_from_file (file_bytes : bytes) (file_name : string)
  : M string :=
  if Str.endswith (Str.lower file_name) ".pdf" then
    extract_text_from_pdf file_bytes
  else if Str.endswith (Str.lower file_name) ".docx" then
    extract_text_from_docx file_bytes
  else
    let error_message :=
      "Unsupported file format. Only PDF and DOCX are supported." in
    logging_error error_message ;;
    raise (HTTPException 400 error_message).

End FileUtils.

(* ================================================================= *)
(** ** services/llm_service.py *)

Definition MODEL : string := "gpt-4o-2024-08-06".

(** The system message of [extract_job_criteria]. *)
Definition criteria_system_message : string :=
  Str.join nl [
    EmptyString;
    "    You are an expert HR assistant. ";
    "    ";
    "    If the user provided text is a valid job description, extract the key ranking criteria from ";
    "    the job description. Focus on required skills, certifications, experience levels, qualifications, ";
    "    and competencies. Return a list of clear, concise criteria statements without numbering or bullet points.";
    "    Each criterion should be specific and measurable. ";
    "    Make sure to extract all key ranking criteria written in the job description along with all the keywords such as 'essential', 'must have'.";
    "    ";
    "    If the user provided text is a not a valid job description, return an empty list.";
    "    Invalid job descriptions can include (but is not limited to):  resumes, cvs, cover letters, portfolios,";
    "    work samples, training manuals, job offer letters, company policies, and handbooks.     ";
    "    "
  ].

(** The system message of [score_resume], around [{criteria_str}]. *)
Definition scoring_system_message (criteria_str : string) : string :=
  Str.join nl [
    EmptyString;
    "    You are an expert HR assistant tasked with evaluating resumes against specific job criteria. ";
    "    For each criterion, assign a score from 0 (lowest match) to 5 (highest match).";
    EmptyString;
    "    Scoring Guidelines for each criterion can be found here:";
    EmptyString;
    "    Skills (Hard Skills):";
    "        - Recency and Experience: Prioritize recent experience. More years of relevant experience generally lead to higher scores.";
    "            - 5+ years recent experience: High score (e.g., 4-5).";
    "            - 2-3 years recent experience: Medium score (e.g., 2-3).";
    "            - Past experience (less recent) or limited experience: Lower score (e.g., 0-2).";
    "        - Keywords and Related Experience: Consider keywords and related experience even if the exact skill isn't explicitly stated.";
    EmptyString;
    "    Soft Skills (e.g., Communication):";
    "        - Evidence in Resume: Look for evidence of the soft skill throughout the resume (e.g., action verbs, descriptions of responsibilities, project examples).";
    "        - Context and Impact: Assess how the candidate demonstrates the soft skill in their past roles and the impact of that skill. For example, " ++ dq ++ "Led team presentations" ++ dq ++ " suggests communication skills.";
    "        - Keywords: Consider keywords associated with the soft skill (e.g., " ++ dq ++ "collaborative," ++ dq ++ " " ++ dq ++ "client-facing," ++ dq ++ " " ++ dq ++ "presentation skills" ++ dq ++ ").";
    EmptyString;
    "    Qualifications/Certifications:";
    "        - Hierarchy: Generally, higher qualifications score higher, but relevance to the job is key.";
    "            - PhD: Highest score (if relevant).";
    "            - Master's Degree: High score (if relevant).";
    "            - Bachelor's Degree: Medium score (if relevant).";
    "            - Diploma/Certifications: Score based on relevance and level of specialization. Industry-recognized certifications may be highly valuable.";
    "        - Relevance: Prioritize qualifications directly related to the job requirements.";
    "        - Institution: Consider the reputation of the institution granting the qualification.";
    EmptyString;
    "        Additionally, please extract the candidateâ€™s name from the resume before proceeding with the evaluation.";
    EmptyString;
    "        Given a resume, evaluate the candidate ONLY against the following criteria:";
    EmptyString;
    "        " ++ criteria_str;
    EmptyString;
    "        For each criterion, provide a score between 0 and 5. ";
    "        Apply your HR expertise to interpret these guidelines and assign scores.";
    "        ";
    "        In the response, make sure that the CriterionScore.criterion exactly matches the provided criterion.";
    "        "
  ].

(** The two-message conversation sent to the provider. *)
Definition messages (system_message user_message : string)
  : list (Dict.t string) :=
  [ Dict.update Dict.empty [("role", "system"); ("content", system_message)];
    Dict.update Dict.empty [("role", "user"); ("content", user_message)] ].

Section LlmService.

Variable env : Env.

(** The client is built before the [try]; the call to the provider
    and the read of [message.parsed] are inside it. *)
Definition call_gpt_api (system_message user_message : string)
    (response_format : response_format)
  : M (option (shape response_format)) :=
  match OPENAI_API_KEY env with
  | None => raise OpenAIError
  | Some _ =>
      let messages := messages system_message user_message in
      w <- history ;;
      emit (ParseCalled MODEL messages response_format) ;;
      match parse env w MODEL messages response_format with
      | Returned parsed => ret parsed
      | Raised e =>
          logging_error
            ("OpenAI GPT API call failed while parsing the response : " ++ e) ;;
          raise (HTTPException 500
            "An unexpected error occurred while processing your request. Please try again later.")
      end
  end.

Definition extract_job_criteria (job_description : string) : M Criteria :=
  let system_message := criteria_system_message in
  let user_message := job_description in
  response <- call_gpt_api system_message user_message CriteriaFormat ;;
  match response with
  | None => raise (AttributeError "criteria")
  | Some response =>
      if (List.length (criteria response) =? 0)%nat then
        let error_message :=
          "Invalid file. Please upload a valid job description." in
        logging_error error_message ;;
        raise (HTTPException 400 error_message)
      else ret response
  end.

Definition score_resume (resume_criteria : list string)
    (resume_content : string) : M (option ResumeScore) :=
  let criteria_str := Str.join nl resume_criteria in
  let system_message := scoring_system_message criteria_str in
  let user_message := "Resume: " ++ resume_content in
  call_gpt_api system_message user_message ResumeScoreFormat.

End LlmService.

(* ================================================================= *)
(** ** The csv module: [csv.writer] and [csv.DictWriter] *)

(** A value stored in a row: the candidate name is a [str], a score
    and the total are [int]s. *)
Inductive value :=
| VStr (s : string)
| VInt (n : Z).

Module Csv.

(** The [excel] dialect. *)
Definition delimiter : ascii := ","%char.
Definition quotechar : ascii := "034"%char.
Definition lineterminator : string := cr ++ nl.

(** A field is written as it is when it is a [str], through [str()]
    otherwise. *)
Definition field_text (v : value) : string :=
  match v with
  | VStr s => s
  | VInt n => Str.of_int n
  end.

(** [QUOTE_MINIMAL]: a field is quoted when it holds the delimiter,
    the quote character or a character of the line terminator. *)
Definition needs_quotes (field : string) : bool :=
  Str.contains delimiter field
  || Str.contains quotechar field
  || Str.contains "013"%char field
  || Str.contains "010"%char field.

(** [doublequote]: a quote character inside a field is written
    twice. *)
Fixpoint double_quotes (field : string) : string :=
  match field with
  | EmptyString => EmptyString
  | String c rest =>
      if Ascii.eqb c quotechar
      then String c (String c (double_quotes rest))
      else String c (double_quotes rest)
  end.

Definition join_append (field : string) : string :=
  if needs_quotes field
  then String quotechar (double_quotes field ++ String quotechar EmptyString)
  else field.

(** [writer.writerow(fields)]: the text appended to the file.  A row
    of one empty field is written as a pair of quotes. *)
Definition writerow (fields : list value) : string :=
  match map field_text fields with
  | [EmptyString] =>
      String quotechar (String quotechar EmptyString) ++ lineterminator
  | texts => Str.join "," (map join_append texts) ++ lineterminator
  end.

(** [DictWriter] with its defaults: [restval=''],
    [extrasaction='raise']. *)
Definition restval : value := VStr EmptyString.

Definition _dict_to_list (fieldnames : list string) (rowdict : Dict.t value)
  : exn + list value :=
  let wrong_fields :=
    filter (fun k => negb (Str.mem k fieldnames)) (Dict.keys rowdict) in
  match wrong_fields with
  | [] =>
      inr (map (fun key => Dict.get_default key restval rowdict) fieldnames)
  | _ :: _ => inl (ValueError wrong_fields)
  end.

(** [DictWriter.writeheader()]: the row
    [dict(zip(fieldnames, fieldnames))]. *)
Definition writeheader (fieldnames : list string) (buffer : string)
  : string :=
  buffer ++ writerow (map VStr fieldnames).

(** [DictWriter.writerows(rowdicts)]: the rows are converted and
    written one after the other; the first row with a key outside
    [fieldnames] raises. *)
Fixpoint writerows (fieldnames : list string)
    (rowdicts : list (Dict.t value)) (buffer : string) : exn + string :=
  match rowdicts with
  | [] => inr buffer
  | rowdict :: rest =>
      match _dict_to_list fieldnames rowdict with
      | inl e => inl e
      | inr fields => writerows fieldnames rest (buffer ++ writerow fields)
      end
  end.

End Csv.

(* ================================================================= *)
(** ** routers/api.py *)

Record UploadFile := {
  filename : string;
  read : bytes
}.

Record Response := {
  content : string;
  media_type : string;
  headers : Dict.t string;
  status_code : Z
}.

(** The score dictionary of one resume. *)
Definition scores_by_criterion (resume_score : ResumeScore) : Dict.t Z :=
  Dict.update Dict.empty
    (map (fun criterion_score =>
            (criterion criterion_score, score criterion_score))
         (criterion_scores resume_score)).

(** [sum(xs)] *)
Definition sum (xs : list Z) : Z := fold_left Z.add xs 0.

Definition total_score (resume_score : ResumeScore) : Z :=
  sum (Dict.values (scores_by_criterion resume_score)).

(** The record appended to [resume_scores]:
    [{'Candidate Name': ..., **scores_by_criterion, 'Total Score': ...}]. *)
Definition record (resume_score : ResumeScore) : Dict.t value :=
  Dict.update Dict.empty
    ([("Candidate Name", VStr (candidate_name resume_score))]
     ++ map (fun kv => (fst kv, VInt (snd kv)))
            (Dict.items (scores_by_criterion resume_score))
     ++ [("Total Score", VInt (total_score resume_score))])%list.

(** The CSV assembly at the end of [score_resumes] (the report
    assembler): [csv_content] from [resume_scores]. *)
Definition csv_content (resume_scores : list (Dict.t value)) : exn + string :=
  match resume_scores with
  | [] => inr EmptyString
  | first :: _ =>
      let buffer := EmptyString in
      let fieldnames := Dict.keys first in
      Csv.writerows fieldnames resume_scores
        (Csv.writeheader fieldnames buffer)
  end.

Section Api.

Variable env : Env.

Definition extract_criteria (job_description_file : UploadFile)
  : M Criteria :=
  let contents := read job_description_file in
  logging_info ("Processing job description from file: "
                ++ filename job_description_file) ;;
  job_description_text <-
    extract_text_from_file env contents (filename job_description_file) ;;
  criteria <- extract_job_criteria env job_description_text ;;
  logging_info "Successfully extracted job criteria" ;;
  ret criteria.

(** The loop over [file_list], with [resume_scores] as accumulator. *)
Fixpoint score_files (criteria : list string) (file_list : list UploadFile)
    (resume_scores : list (Dict.t value)) : M (list (Dict.t value)) :=
  match file_list with
  | [] => ret resume_scores
  | resume_file :: rest =>
      let file_bytes := read resume_file in
      resume_content <-
        extract_text_from_file env file_bytes (filename resume_file) ;;
      logging_info ("Scoring resume from file: " ++ filename resume_file) ;;
      resume_score <- score_resume env criteria resume_content ;;
      match resume_score with
      | None => raise (AttributeError "criterion_scores")
      | Some resume_score =>
          logging_info "Successfully scored the resume" ;;
          score_files criteria rest
            (resume_scores ++ [record resume_score])%list
      end
  end.

Definition score_resumes (criteria : list string)
    (file_list : list UploadFile) : M Response :=
  resume_scores <- score_files criteria file_list [] ;;
  match csv_content resume_scores with
  | inl e => raise e
  | inr csv_content =>
      ret {| content := csv_content;
             media_type := "text/csv";
             headers :=
               Dict.update Dict.empty
                 [("Content-Disposition",
                   "attachment; filename=resume-scoring.csv")];
             status_code := 200 |}
  end.

End Api.

(* ================================================================= *)
(** ** Notions used to state the properties *)

(** The score of the last entry the provider returned for criterion
    [c], if there is one. *)
Definition last_score (c : string) (resume_score : ResumeScore) : option Z :=
  option_map score
    (find (fun cs => String.eqb (criterion cs) c)
          (rev (criterion_scores resume_score))).

(** [name] ends in [ext] when the case of letters is ignored: it
    splits into a stem and a suffix that lowers to [ext]. *)
Definition ends_with_ignoring_case (name ext : string) : Prop :=
  exists stem suffix, name = stem ++ suffix /\ Str.lower suffix = ext.

(** [resume_score] is what the provider parsed for some scoring
    request. *)
Definition scoring_reply (env : Env) (resume_score : ResumeScore) : Prop :=
  exists w system_message user_message,
    parse env w MODEL (messages system_message user_message)
      ResumeScoreFormat
    = Returned (Some resume_score).

(** The keys of a row that [fieldnames] does not have. *)
Definition wrong_fields (fieldnames : list string) (rowdict : Dict.t value)
  : list string :=
  filter (fun k => negb (Str.mem k fieldnames)) (Dict.keys rowdict).

(** The line of the report for [rowdict] under the columns
    [fieldnames]: one cell per column, empty where the row has no such
    key. *)
Definition cells (fieldnames : list string) (rowdict : Dict.t value)
  : list value :=
  map (fun key => Dict.get_default key Csv.restval rowdict) fieldnames.

(** The text of a report with columns [fieldnames]: the header line,
    then one line per row. *)
Definition report_text (fieldnames : list string)
    (rowdicts : list (Dict.t value)) : string :=
  Csv.writerow (map VStr fieldnames)
  ++ fold_right String.append EmptyString
       (map (fun rowdict => Csv.writerow (cells fieldnames rowdict)) rowdicts).

(** The detail strings of the errors the service raises on purpose. *)
Definition pdf_failed : string := "Error extracting text from PDF.".
Definition docx_failed : string := "Error extracting text from the document.".
Definition llm_failed : string :=
  "An unexpected error occurred while processing your request. Please try again later.".
Definition unsupported_format : string :=
  "Unsupported file format. Only PDF and DOCX are supported.".
Definition invalid_job_description : string :=
  "Invalid file. Please upload a valid job description.".

(** [needle] occurs in [text]. *)
Definition occurs_in (needle text : string) : Prop :=
  exists before after, text = before ++ needle ++ after.

(** Calls to a parser and calls to the provider among events. *)
Definition is_parser_call (ev : event) : bool :=
  match ev with
  | PdfReaderCalled _ | DocumentCalled _ => true
  | _ => false
  end.

Definition is_provider_call (ev : event) : bool :=
  match ev with
  | ParseCalled _ _ _ => true
  | _ => false
  end.

Definition parser_calls (w : list event) : nat :=
  List.length (filter is_parser_call w).

Definition provider_calls (w : list event) : nat :=
  List.length (filter is_provider_call w).

(** A file name the service accepts. *)
Definition supported (file_name : string) : Prop :=
  ends_with_ignoring_case file_name ".pdf"
  \/ ends_with_ignoring_case file_name ".docx".


(** The file is one its parser reads. *)
Definition readable (env : Env) (resume_file : UploadFile) : Prop :=
  (ends_with_ignoring_case (filename resume_file) ".pdf"
   /\ exists pages, PdfReader env (read resume_file) = Returned pages)
  \/ (ends_with_ignoring_case (filename resume_file) ".docx"
      /\ exists paragraphs,
           Document env (read resume_file) = Returned paragraphs).

(** The reply scores the criteria [returned], each between 0 and 5. *)
Definition within_rubric (returned : list string) (rs : ResumeScore) : Prop :=
  map criterion (criterion_scores rs) = returned
  /\ Forall (fun x => 0 <= score x <= 5) (criterion_scores rs).

(* ================================================================= *)
(** ** Scripted collaborators for concrete runs *)

Module Script.

(** How many calls to the provider the events so far hold. *)
Definition calls (w : list event) : nat :=
  List.length
    (filter (fun ev => match ev with ParseCalled _ _ _ => true | _ => false end)
            w).

(** An environment whose parsers answer [pdf] and [docx] whatever the
    bytes, whose provider answers [extraction] to a criteria request
    and the [n]-th element of [scorings] to the [n]-th request of the
    run when it is a scoring request. *)
Definition env (pdf docx : outcome (list string)) (key : option string)
    (extraction : outcome (option Criteria))
    (scorings : list (outcome (option ResumeScore))) : Env :=
  {| PdfReader := fun _ => pdf;
     Document := fun _ => docx;
     OPENAI_API_KEY := key;
     parse := fun w _ _ fmt =>
       match fmt return outcome (option (shape fmt)) with
       | CriteriaFormat => extraction
       | ResumeScoreFormat =>
           nth (calls w) scorings (Raised "no more replies")
       end |}.

Definition key : option string := Some "sk-test".

(** An environment in which every collaborator fails with the text
    [e]. *)
Definition failing (e : string) : Env :=
  env (Raised e) (Raised e) key (Raised e) [].
Definition page : outcome (list string) := Returned ["Curriculum vitae"].

Definition pdf (name : string) : UploadFile :=
  {| filename := name; read := [] |}.

Definition entry (c : string) (s : Z) : CriterionScore :=
  {| criterion := c; score := s |}.

Definition ann : ResumeScore :=
  {| candidate_name := "Ann";
     criterion_scores := [entry "X" 4; entry "Y" 2] |}.

Definition bob : ResumeScore :=
  {| candidate_name := "Bob";
     criterion_scores := [entry "Y" 5] |}.

(** An environment whose parsers always read [texts] and whose
    provider always parses [reply] for a scoring request. *)
Definition steady (texts : list string) (reply : ResumeScore) : Env :=
  {| PdfReader := fun _ => Returned texts;
     Document := fun _ => Returned texts;
     OPENAI_API_KEY := key;
     parse := fun _ _ _ fmt =>
       match fmt return outcome (option (shape fmt)) with
       | CriteriaFormat => Raised "not scripted"
       | ResumeScoreFormat => Returned (Some reply)
       end |}.

(** A reply with a repeated criterion and the two reserved column
    names used as criteria. *)
Definition cyd : ResumeScore :=
  {| candidate_name := "Cyd";
     criterion_scores :=
       [entry "Z" 5; entry "Total Score" 1; entry "Candidate Name" 3;
        entry "Z" 2] |}.

(** A reply that stays within the schema and not within the rubric:
    two entries for one criterion asked, one score above five, one
    criterion that was not asked. *)
Definition dee : ResumeScore :=
  {| candidate_name := "Dee";
     criterion_scores := [entry "Python" 9; entry "Java" 3] |}.

End Script.

(* ================================================================= *)
(** * Properties *)

(** ** Dictionaries *)

Lemma mem_In (x : string) (l : list string) : Str.mem x l = true <-> In x l.
Proof.
  unfold Str.mem. rewrite existsb_exists. split.
  - intros [y [Hy E]]. apply String.eqb_eq in E. now subst.
  - intros H. exists x. split; [assumption | apply String.eqb_refl].
Qed.

Lemma mem_not_In (x : string) (l : list string) :
  Str.mem x l = false <-> ~ In x l.
Proof.
  rewrite <- mem_In. destruct (Str.mem x l); split; congruence.
Qed.

Section DictFacts.

Context {V : Type}.
Implicit Types (d : Dict.t V) (k : string) (v : V).

Lemma get_set_same k v d : Dict.get k (Dict.set k v d) = Some v.
Proof.
  induction d as [|[k' v'] d IH]; simpl.
  - now rewrite String.eqb_refl.
  - destruct (String.eqb k' k) eqn:E; simpl; rewrite E; auto.
Qed.

Lemma get_set_other k k' v d :
  k <> k' -> Dict.get k' (Dict.set k v d) = Dict.get k' d.
Proof.
  intros N. induction d as [|[k0 v0] d IH]; simpl.
  - apply String.eqb_neq in N. now rewrite N.
  - destruct (String.eqb k0 k) eqn:E; simpl.
    + apply String.eqb_eq in E. subst k0.
      apply String.eqb_neq in N. now rewrite N.
    + now rewrite IH.
Qed.

Lemma keys_set k v d :
  Dict.keys (Dict.set k v d)
  = if Str.mem k (Dict.keys d) then Dict.keys d
    else (Dict.keys d ++ [k])%list.
Proof.
  unfold Dict.keys.
  induction d as [|[k' v'] d IH]; simpl; [reflexivity|].
  rewrite (String.eqb_sym k k').
  destruct (String.eqb k' k) eqn:E; simpl; [reflexivity|].
  rewrite IH. now destruct (Str.mem k (map fst d)).
Qed.

Lemma In_keys_set k k' v d :
  In k' (Dict.keys (Dict.set k v d)) <-> k' = k \/ In k' (Dict.keys d).
Proof.
  rewrite keys_set. destruct (Str.mem k (Dict.keys d)) eqn:E.
  - apply mem_In in E. split; [auto | intros [->|]; auto].
  - rewrite in_app_iff. simpl. intuition.
Qed.

Lemma NoDup_keys_set k v d :
  NoDup (Dict.keys d) -> NoDup (Dict.keys (Dict.set k v d)).
Proof.
  intros H. rewrite keys_set. destruct (Str.mem k (Dict.keys d)) eqn:E; auto.
  apply mem_not_In in E.
  apply NoDup_rev in H. rewrite <- (rev_involutive (_ ++ _)%list).
  apply NoDup_rev. rewrite rev_app_distr. simpl. constructor; auto.
  now rewrite <- in_rev.
Qed.

Lemma update_snoc d kvs kv :
  Dict.update d (kvs ++ [kv]) = Dict.set (fst kv) (snd kv) (Dict.update d kvs).
Proof. unfold Dict.update. now rewrite fold_left_app. Qed.

Lemma update_app d kvs kvs' :
  Dict.update d (kvs ++ kvs') = Dict.update (Dict.update d kvs) kvs'.
Proof. unfold Dict.update. now rewrite fold_left_app. Qed.

(** Reading a key after a series of assignments gives the last value
    assigned to it, or what the dictionary held before. *)
Lemma get_update k d kvs :
  Dict.get k (Dict.update d kvs)
  = match find (fun kv => String.eqb (fst kv) k) (rev kvs) with
    | Some kv => Some (snd kv)
    | None => Dict.get k d
    end.
Proof.
  induction kvs as [|kv kvs IH] using rev_ind; [reflexivity|].
  rewrite update_snoc, rev_app_distr. simpl.
  destruct (String.eqb (fst kv) k) eqn:E.
  - apply String.eqb_eq in E. subst k. apply get_set_same.
  - apply String.eqb_neq in E. now rewrite get_set_other.
Qed.

Lemma In_keys_update k d kvs :
  In k (Dict.keys (Dict.update d kvs))
  <-> In k (Dict.keys d) \/ In k (map fst kvs).
Proof.
  induction kvs as [|kv kvs IH] using rev_ind; [simpl; tauto|].
  rewrite update_snoc, In_keys_set, IH, map_app, in_app_iff. simpl.
  intuition.
Qed.

Lemma NoDup_keys_update d kvs :
  NoDup (Dict.keys d) -> NoDup (Dict.keys (Dict.update d kvs)).
Proof.
  intros H. induction kvs as [|kv kvs IH] using rev_ind; [assumption|].
  rewrite update_snoc. now apply NoDup_keys_set.
Qed.

Lemma get_In_keys k d : In k (Dict.keys d) <-> Dict.get k d <> None.
Proof.
  induction d as [|[k' v'] d IH]; simpl; [intuition congruence|].
  destruct (String.eqb k' k) eqn:E.
  - apply String.eqb_eq in E. split; [congruence | auto].
  - apply String.eqb_neq in E. rewrite <- IH. intuition.
Qed.

Lemma get_not_In_keys k d : ~ In k (Dict.keys d) -> Dict.get k d = None.
Proof.
  rewrite get_In_keys. destruct (Dict.get k d); [|reflexivity].
  intros H. exfalso. apply H. discriminate.
Qed.

End DictFacts.

(** ** Lists *)

Lemma find_app {A} (p : A -> bool) (l l' : list A) :
  find p (l ++ l') = match find p l with Some x => Some x | None => find p l' end.
Proof.
  induction l as [|a l IH]; simpl; [reflexivity|].
  now destruct (p a).
Qed.

Lemma find_all_false {A} (p : A -> bool) (l : list A) :
  (forall a, In a l -> p a = false) -> find p l = None.
Proof.
  induction l as [|a l IH]; simpl; [reflexivity|].
  intros H. rewrite (H a) by now left. apply IH. intros b Hb. apply H. now right.
Qed.

Lemma find_map {A B} (p : B -> bool) (f : A -> B) (l : list A) :
  find p (map f l) = option_map f (find (fun a => p (f a)) l).
Proof.
  induction l as [|a l IH]; simpl; [reflexivity|].
  now destruct (p (f a)).
Qed.

Lemma find_key_None {V} (k : string) (l : list (string * V)) :
  ~ In k (map fst l) -> find (fun kv => String.eqb (fst kv) k) l = None.
Proof.
  induction l as [|[k' v'] l IH]; simpl; [reflexivity|].
  intros N. destruct (String.eqb k' k) eqn:E.
  - apply String.eqb_eq in E. tauto.
  - apply IH. tauto.
Qed.

(** With no key repeated, the last pair for a key is the first one. *)
Lemma find_key_rev {V} (k : string) (l : list (string * V)) :
  NoDup (map fst l) ->
  find (fun kv => String.eqb (fst kv) k) (rev l)
  = find (fun kv => String.eqb (fst kv) k) l.
Proof.
  induction l as [|[k' v'] l IH]; simpl; [reflexivity|].
  intros H. inversion H as [|? ? Hk Hl]; subst.
  rewrite find_app, (IH Hl). simpl.
  destruct (String.eqb k' k) eqn:E.
  - apply String.eqb_eq in E. subst k'. now rewrite find_key_None.
  - now destruct (find _ l).
Qed.

Lemma get_find {V} (k : string) (d : Dict.t V) :
  Dict.get k d = option_map snd (find (fun kv => String.eqb (fst kv) k) d).
Proof.
  induction d as [|[k' v'] d IH]; simpl; [reflexivity|].
  now destruct (String.eqb k' k).
Qed.

(** Splicing a dictionary into another ([**d]), with its values sent
    through [f]. *)
Lemma get_update_items {V W} (f : V -> W) (k : string)
    (d0 : Dict.t W) (d : Dict.t V) :
  NoDup (Dict.keys d) ->
  Dict.get k (Dict.update d0 (map (fun kv => (fst kv, f (snd kv))) d))
  = match Dict.get k d with
    | Some v => Some (f v)
    | None => Dict.get k d0
    end.
Proof.
  intros H. rewrite get_update, find_key_rev.
  - rewrite find_map, (get_find k d). simpl.
    now destruct (find (fun a => String.eqb (fst a) k) d).
  - rewrite map_map. simpl. exact H.
Qed.

(** With no key repeated, the values are the values read key by
    key. *)
Lemma values_by_keys {V} (default : V) (d : Dict.t V) :
  NoDup (Dict.keys d) ->
  Dict.values d = map (fun k => Dict.get_default k default d) (Dict.keys d).
Proof.
  unfold Dict.values, Dict.keys, Dict.get_default.
  induction d as [|[k' v'] d IH]; simpl; [reflexivity|].
  intros H. inversion H as [|? ? Hk Hd]; subst.
  rewrite String.eqb_refl. f_equal.
  rewrite (IH Hd). apply map_ext_in. intros k Hin.
  destruct (String.eqb k' k) eqn:E; [|reflexivity].
  apply String.eqb_eq in E. subst. contradiction.
Qed.

(** ** [sum] *)

Lemma fold_add_start (xs : list Z) (a : Z) :
  fold_left Z.add xs a = a + fold_left Z.add xs 0.
Proof.
  revert a. induction xs as [|x xs IH]; intros a; simpl; [lia|].
  rewrite (IH (a + x)), (IH x). lia.
Qed.

Lemma sum_cons (x : Z) (xs : list Z) : sum (x :: xs) = x + sum xs.
Proof. unfold sum. simpl. apply fold_add_start. Qed.

Lemma sum_app (xs ys : list Z) : sum (xs ++ ys) = sum xs + sum ys.
Proof.
  induction xs as [|x xs IH]; [reflexivity|].
  simpl. rewrite !sum_cons, IH. lia.
Qed.

(** ** The score dictionary and the record of a resume *)

Lemma scores_by_criterion_NoDup (rs : ResumeScore) :
  NoDup (Dict.keys (scores_by_criterion rs)).
Proof. apply NoDup_keys_update. constructor. Qed.

Lemma scores_by_criterion_keys (rs : ResumeScore) (c : string) :
  In c (Dict.keys (scores_by_criterion rs))
  <-> In c (map criterion (criterion_scores rs)).
Proof.
  unfold scores_by_criterion. rewrite In_keys_update, map_map. simpl. tauto.
Qed.

Lemma scores_by_criterion_get (rs : ResumeScore) (c : string) :
  Dict.get c (scores_by_criterion rs) = last_score c rs.
Proof.
  unfold scores_by_criterion, last_score.
  rewrite get_update, <- map_rev, find_map. simpl.
  now destruct (find _ (rev (criterion_scores rs))).
Qed.

Lemma record_NoDup (rs : ResumeScore) : NoDup (Dict.keys (record rs)).
Proof. apply NoDup_keys_update. constructor. Qed.

Lemma record_keys (rs : ResumeScore) (k : string) :
  In k (Dict.keys (record rs))
  <-> k = "Candidate Name" \/ k = "Total Score"
      \/ In k (map criterion (criterion_scores rs)).
Proof.
  unfold record. rewrite In_keys_update. simpl.
  rewrite map_app, in_app_iff, map_map. simpl.
  change (map (fun x => fst x) (Dict.items (scores_by_criterion rs)))
    with (Dict.keys (scores_by_criterion rs)).
  rewrite scores_by_criterion_keys. intuition.
Qed.

(** What a record holds under each key. *)
Lemma record_get (rs : ResumeScore) (k : string) :
  Dict.get k (record rs)
  = if String.eqb k "Total Score" then Some (VInt (total_score rs))
    else match last_score k rs with
         | Some s => Some (VInt s)
         | None => if String.eqb k "Candidate Name"
                   then Some (VStr (candidate_name rs)) else None
         end.
Proof.
  unfold record.
  rewrite (app_assoc [_]), update_snoc. simpl fst; simpl snd.
  destruct (String.eqb k "Total Score") eqn:E.
  - apply String.eqb_eq in E. subst k. apply get_set_same.
  - apply String.eqb_neq in E.
    rewrite get_set_other by congruence.
    rewrite update_app.
    rewrite (get_update_items VInt) by apply scores_by_criterion_NoDup.
    unfold Dict.items. rewrite scores_by_criterion_get.
    destruct (last_score k rs); [reflexivity|].
    change (Dict.get k (Dict.update Dict.empty
                          [("Candidate Name", VStr (candidate_name rs))]))
      with (if String.eqb "Candidate Name" k
            then Some (VStr (candidate_name rs)) else None).
    now rewrite (String.eqb_sym k).
Qed.

(** [last_score] reads the entry after which the criterion does not
    come back. *)
Lemma last_score_split (rs : ResumeScore) (before after : list CriterionScore)
    (x : CriterionScore) :
  criterion_scores rs = (before ++ x :: after)%list ->
  (forall y, In y after -> criterion y <> criterion x) ->
  last_score (criterion x) rs = Some (score x).
Proof.
  intros E H. unfold last_score. rewrite E, rev_app_distr. simpl.
  rewrite <- app_assoc, find_app. simpl.
  replace (find _ (rev after)) with (@None CriterionScore).
  - now rewrite String.eqb_refl.
  - symmetry. apply find_all_false. intros y Hy.
    apply String.eqb_neq, H. now apply in_rev.
Qed.

Lemma last_score_returned (rs : ResumeScore) (c : string) :
  In c (map criterion (criterion_scores rs)) <-> last_score c rs <> None.
Proof.
  rewrite <- scores_by_criterion_get, <- get_In_keys.
  symmetry. apply scores_by_criterion_keys.
Qed.

(** The total is the sum, over the distinct criteria, of the last
    score of each. *)
Lemma total_score_distinct (rs : ResumeScore) :
  total_score rs
  = sum (map (fun c => match last_score c rs with Some s => s | None => 0 end)
             (Dict.keys (scores_by_criterion rs))).
Proof.
  unfold total_score.
  rewrite (values_by_keys 0) by apply scores_by_criterion_NoDup.
  f_equal. apply map_ext. intros c.
  unfold Dict.get_default. now rewrite scores_by_criterion_get.
Qed.

(** Taking one key out of a sum of values. *)
Lemma sum_values_split (k : string) (s : Z) (d : Dict.t Z) :
  NoDup (Dict.keys d) ->
  Dict.get k d = Some s ->
  sum (Dict.values d)
  = s + sum (Dict.values
               (filter (fun kv => negb (String.eqb (fst kv) k)) d)).
Proof.
  unfold Dict.values, Dict.keys.
  induction d as [|[k' v'] d IH]; simpl; [discriminate|].
  intros H G. inversion H as [|? ? Hk Hd]; subst.
  rewrite sum_cons. destruct (String.eqb k' k) eqn:E; simpl.
  - injection G as ->. apply String.eqb_eq in E. subst k'.
    f_equal. f_equal. f_equal. symmetry.
    apply forallb_filter_id. apply forallb_forall.
    intros [k0 v0] Hin. simpl.
    destruct (String.eqb k0 k) eqn:E0; [|reflexivity].
    apply String.eqb_eq in E0. subst k0. exfalso. apply Hk.
    now apply (in_map fst) in Hin.
  - rewrite sum_cons, (IH Hd G). lia.
Qed.

(** ** The services, step by step *)

Lemma call_gpt_api_run (env : Env) (system_message user_message : string)
    (fmt : response_format) (w : list event) :
  call_gpt_api env system_message user_message fmt w
  = match OPENAI_API_KEY env with
    | None => (inl OpenAIError, w)
    | Some _ =>
        let called :=
          (w ++ [ParseCalled MODEL (messages system_message user_message) fmt])%list in
        match parse env w MODEL (messages system_message user_message) fmt with
        | Returned parsed => (inr parsed, called)
        | Raised e =>
            (inl (HTTPException 500 llm_failed),
             (called ++ [Logged ERROR
                ("OpenAI GPT API call failed while parsing the response : " ++ e)])%list)
        end
    end.
Proof.
  unfold call_gpt_api. destruct (OPENAI_API_KEY env); [|reflexivity].
  unfold bind, history, emit.
  now destruct (parse env w MODEL (messages system_message user_message) fmt).
Qed.

Lemma score_resume_returns (env : Env) (criteria : list string)
    (resume_content : string) (w w' : list event) (rs : ResumeScore) :
  score_resume env criteria resume_content w = (inr (Some rs), w') ->
  scoring_reply env rs.
Proof.
  unfold score_resume. rewrite call_gpt_api_run.
  destruct (OPENAI_API_KEY env); [|discriminate].
  cbv zeta.
  destruct (parse env w MODEL _ ResumeScoreFormat) as [e|parsed] eqn:P;
    [discriminate|].
  intros E. injection E as -> _.
  eexists _, _, _. exact P.
Qed.

(** The rows gathered by the loop are the records of the provider's
    replies, one per file, in the order of the files. *)
Lemma score_files_records (env : Env) (criteria : list string)
    (file_list : list UploadFile) :
  forall (acc : list (Dict.t value)) (w w' : list event)
         (resume_scores : list (Dict.t value)),
    score_files env criteria file_list acc w = (inr resume_scores, w') ->
    exists replies,
      resume_scores = (acc ++ map record replies)%list
      /\ List.length replies = List.length file_list
      /\ Forall (scoring_reply env) replies.
Proof.
  induction file_list as [|f rest IH]; intros acc w w' rows.
  - intros E. injection E as <- _. exists []. simpl.
    now rewrite app_nil_r.
  - cbn [score_files]. unfold bind at 1.
    destruct (extract_text_from_file env (read f) (filename f) w)
      as [[e|text] w1]; [discriminate|].
    unfold bind at 1. unfold logging_info at 1. unfold emit at 1.
    unfold bind at 1.
    destruct (score_resume env criteria text _) as [[e|[rs|]] w2] eqn:S;
      [discriminate| |discriminate].
    unfold bind at 1. unfold logging_info at 1. unfold emit at 1.
    intros E. apply IH in E. destruct E as [replies [E1 [E2 E3]]].
    exists (rs :: replies). repeat split.
    + rewrite E1, <- app_assoc. reflexivity.
    + simpl. now rewrite E2.
    + constructor; [|assumption]. eapply score_resume_returns. exact S.
Qed.

(** ** The CSV writer *)

Lemma append_assoc (a b c : string) : (a ++ b) ++ c = a ++ (b ++ c).
Proof. induction a as [|x a IH]; simpl; [reflexivity | now rewrite IH]. Qed.

Lemma append_nil_r (a : string) : a ++ EmptyString = a.
Proof. induction a as [|x a IH]; simpl; [reflexivity | now rewrite IH]. Qed.

Lemma wrong_fields_nil (fieldnames : list string) (rowdict : Dict.t value) :
  wrong_fields fieldnames rowdict = []
  <-> incl (Dict.keys rowdict) fieldnames.
Proof.
  unfold wrong_fields, incl. split.
  - intros E k Hk. destruct (Str.mem k fieldnames) eqn:M.
    + now apply mem_In.
    + assert (In k []) as []. rewrite <- E. apply filter_In. now rewrite M.
  - intros H. destruct (filter _ _) as [|k l] eqn:E; [reflexivity|].
    assert (In k (k :: l)) as Hin by now left.
    rewrite <- E in Hin. apply filter_In in Hin. destruct Hin as [Hin M].
    apply H, mem_In in Hin. rewrite Hin in M. discriminate.
Qed.

Lemma wrong_fields_outside (fieldnames : list string) (rowdict : Dict.t value)
    (k : string) :
  In k (wrong_fields fieldnames rowdict)
  <-> In k (Dict.keys rowdict) /\ ~ In k fieldnames.
Proof.
  unfold wrong_fields. rewrite filter_In, <- mem_not_In.
  now destruct (Str.mem k fieldnames).
Qed.

Lemma dict_to_list_run (fieldnames : list string) (rowdict : Dict.t value) :
  Csv._dict_to_list fieldnames rowdict
  = match wrong_fields fieldnames rowdict with
    | [] => inr (cells fieldnames rowdict)
    | _ :: _ => inl (ValueError (wrong_fields fieldnames rowdict))
    end.
Proof.
  unfold Csv._dict_to_list. fold (wrong_fields fieldnames rowdict).
  now destruct (wrong_fields fieldnames rowdict).
Qed.

(** [writerows] stops at the first row with a key outside
    [fieldnames]; with no such row it appends one line per row. *)
Lemma writerows_run (fieldnames : list string)
    (rowdicts : list (Dict.t value)) :
  forall buffer,
    Csv.writerows fieldnames rowdicts buffer
    = match find (fun r => match wrong_fields fieldnames r with
                           | [] => false
                           | _ => true
                           end) rowdicts with
      | Some r => inl (ValueError (wrong_fields fieldnames r))
      | None =>
          inr (buffer
               ++ fold_right String.append EmptyString
                    (map (fun r => Csv.writerow (cells fieldnames r)) rowdicts))
      end.
Proof.
  induction rowdicts as [|r rest IH]; intros buffer.
  - simpl. now rewrite append_nil_r.
  - cbn [Csv.writerows find map fold_right]. rewrite dict_to_list_run.
    destruct (wrong_fields fieldnames r) eqn:E; [|now rewrite E].
    rewrite IH. destruct (find _ rest); [reflexivity|].
    now rewrite append_assoc.
Qed.

Lemma csv_content_run (first : Dict.t value) (rest : list (Dict.t value)) :
  csv_content (first :: rest)
  = match find (fun r => match wrong_fields (Dict.keys first) r with
                         | [] => false
                         | _ => true
                         end) rest with
    | Some r => inl (ValueError (wrong_fields (Dict.keys first) r))
    | None => inr (report_text (Dict.keys first) (first :: rest))
    end.
Proof.
  unfold csv_content, Csv.writeheader. rewrite writerows_run.
  cbn [find].
  assert (wrong_fields (Dict.keys first) first = []) as ->.
  { apply wrong_fields_nil. apply incl_refl. }
  reflexivity.
Qed.

(** ** [lower] and [endswith] *)

Lemma length_append (a b : string) :
  String.length (a ++ b) = (String.length a + String.length b)%nat.
Proof. induction a as [|x a IH]; simpl; [reflexivity | now rewrite IH]. Qed.

Lemma length_lower (s : string) : String.length (Str.lower s) = String.length s.
Proof. induction s as [|x s IH]; simpl; [reflexivity | now rewrite IH]. Qed.

Lemma lower_append (a b : string) :
  Str.lower (a ++ b) = Str.lower a ++ Str.lower b.
Proof. induction a as [|x a IH]; simpl; [reflexivity | now rewrite IH]. Qed.

Lemma lower_substring (s : string) :
  forall i j, Str.lower (substring i j s) = substring i j (Str.lower s).
Proof.
  induction s as [|x s IH]; intros [|i] [|j]; simpl; try reflexivity.
  - now rewrite IH.
  - apply IH.
  - apply IH.
Qed.

Lemma substring_whole (s : string) : substring 0 (String.length s) s = s.
Proof. induction s as [|x s IH]; simpl; [reflexivity | now rewrite IH]. Qed.

Lemma substring_append_right (a b : string) :
  substring (String.length a) (String.length b) (a ++ b) = b.
Proof.
  induction a as [|x a IH]; simpl; [apply substring_whole | exact IH].
Qed.

Lemma substring_split (s : string) :
  forall i j, (i + j = String.length s)%nat ->
              s = substring 0 i s ++ substring i j s.
Proof.
  induction s as [|x s IH]; intros [|i] j H; simpl in *.
  - now subst j.
  - reflexivity.
  - subst j. now rewrite substring_whole.
  - injection H as H. f_equal. now apply IH.
Qed.

(** The test the code makes is the suffix test that ignores case. *)
Lemma endswith_lower (name ext : string) :
  Str.endswith (Str.lower name) ext = true
  <-> ends_with_ignoring_case name ext.
Proof.
  unfold Str.endswith, ends_with_ignoring_case.
  rewrite length_lower, andb_true_iff, Nat.leb_le, String.eqb_eq. split.
  - intros [L E].
    exists (substring 0 (String.length name - String.length ext) name),
           (substring (String.length name - String.length ext)
                      (String.length ext) name).
    split.
    + apply substring_split. lia.
    + now rewrite lower_substring.
  - intros [stem [suffix [-> E]]].
    assert (String.length ext = String.length suffix) as L
      by now rewrite <- E, length_lower.
    rewrite length_append, L. split; [lia|].
    replace (String.length stem + String.length suffix
             - String.length suffix)%nat
      with (String.length (Str.lower stem))
      by (rewrite length_lower; lia).
    rewrite lower_append, <- (length_lower suffix), substring_append_right.
    exact E.
Qed.

(** A name cannot end in both suffixes: its last letter would be an
    [f] and an [x]. *)
Lemma pdf_not_docx (s : string) :
  Str.endswith s ".pdf" = true -> Str.endswith s ".docx" = false.
Proof.
  unfold Str.endswith. intros P.
  apply andb_true_iff in P. destruct P as [Lp Ep].
  apply Nat.leb_le in Lp. apply String.eqb_eq in Ep.
  destruct (Nat.leb_spec (String.length ".docx") (String.length s)) as [Ld|];
    [|reflexivity].
  cbn [andb]. apply String.eqb_neq. intros Ed.
  change (String.length ".pdf") with 4%nat in *.
  change (String.length ".docx") with 5%nat in *.
  pose proof (substring_correct1 s (String.length s - 4) 4 3) as G1.
  pose proof (substring_correct1 s (String.length s - 5) 5 4) as G2.
  rewrite Ep in G1. rewrite Ed in G2.
  replace (3 + (String.length s - 4))%nat with (String.length s - 1)%nat
    in G1 by lia.
  replace (4 + (String.length s - 5))%nat with (String.length s - 1)%nat
    in G2 by lia.
  specialize (G1 ltac:(lia)). specialize (G2 ltac:(lia)).
  rewrite <- G1 in G2. discriminate G2.
Qed.

Lemma score_resumes_run (env : Env) (criteria : list string)
    (file_list : list UploadFile) (w : list event) :
  score_resumes env criteria file_list w
  = match score_files env criteria file_list [] w with
    | (inl e, w') => (inl e, w')
    | (inr resume_scores, w') =>
        match csv_content resume_scores with
        | inl e => (inl e, w')
        | inr text =>
            (inr {| content := text;
                    media_type := "text/csv";
                    headers := [("Content-Disposition",
                                 "attachment; filename=resume-scoring.csv")];
                    status_code := 200 |}, w')
        end
    end.
Proof.
  unfold score_resumes, bind.
  destruct (score_files env criteria file_list [] w) as [[e|rows] w'];
    [reflexivity|].
  now destruct (csv_content rows).
Qed.

(** A report is produced exactly when no later row has a key the
    first row lacks. *)
Lemma csv_content_produced (first : Dict.t value)
    (rest : list (Dict.t value)) (text : string) :
  csv_content (first :: rest) = inr text ->
  text = report_text (Dict.keys first) (first :: rest)
  /\ Forall (fun r => incl (Dict.keys r) (Dict.keys first)) rest.
Proof.
  rewrite csv_content_run.
  destruct (find _ rest) eqn:F; [discriminate|].
  intros E. injection E as <-. split; [reflexivity|].
  apply Forall_forall. intros r Hr.
  apply (find_none _ _ F) in Hr.
  apply wrong_fields_nil. now destruct (wrong_fields (Dict.keys first) r).
Qed.

(* ================================================================= *)
(** * The claims *)

(** ** C1 *)

(** C1, as stated, fails: with [Bob] scored first on [Y] alone and
    [Ann] second on [X] and [Y], the criterion [X] of the later resume
    is not left out silently; the writer raises [ValueError] for it and
    no CSV is produced. *)
Lemma later_criterion_raises :
  result
    (score_resumes
       (Script.env Script.page Script.page Script.key (Raised "unused")
          [Returned (Some Script.bob); Returned (Some Script.ann)])
       ["X"; "Y"] [Script.pdf "bob.pdf"; Script.pdf "ann.pdf"] [])
  = inl (ValueError ["X"])
  /\ ~ exists response,
         result
           (score_resumes
              (Script.env Script.page Script.page Script.key (Raised "unused")
                 [Returned (Some Script.bob); Returned (Some Script.ann)])
              ["X"; "Y"] [Script.pdf "bob.pdf"; Script.pdf "ann.pdf"] [])
         = inr response.
Proof.
  assert (result
    (score_resumes
       (Script.env Script.page Script.page Script.key (Raised "unused")
          [Returned (Some Script.bob); Returned (Some Script.ann)])
       ["X"; "Y"] [Script.pdf "bob.pdf"; Script.pdf "ann.pdf"] [])
    = inl (ValueError ["X"])) as E by (vm_compute; reflexivity).
  split; [exact E|].
  intros [response R]. rewrite E in R. discriminate.
Qed.

(** C1 (amended).  The columns of the report are the keys of the first
    resume's record.  When every criterion of the later resumes is
    among them, the report is the header line followed by one line
    per resume, with an empty cell where a resume has no score for a
    column.  When a later resume has a criterion that is not among
    them, the criterion is not left out: the writer raises
    [ValueError] on fields outside the header, and there is no
    report. *)
Theorem header_from_first_resume (first : ResumeScore)
    (rest : list ResumeScore) :
  let fieldnames := Dict.keys (record first) in
  (Forall (fun rs => forall c, In c (map criterion (criterion_scores rs)) ->
                               In c fieldnames) rest ->
   csv_content (map record (first :: rest))
   = inr (report_text fieldnames (map record (first :: rest))))
  /\ (forall rs k, In rs (first :: rest) ->
        ~ In k (Dict.keys (record rs)) ->
        Dict.get_default k Csv.restval (record rs) = VStr EmptyString)
  /\ (Exists (fun rs => exists c, In c (map criterion (criterion_scores rs))
                                  /\ ~ In c fieldnames) rest ->
      exists wrong,
        wrong <> []
        /\ Forall (fun k => ~ In k fieldnames) wrong
        /\ csv_content (map record (first :: rest)) = inl (ValueError wrong)).
Proof.
  intros fieldnames. cbn [map]. rewrite csv_content_run.
  fold fieldnames. repeat split.
  - intros H. rewrite find_all_false; [reflexivity|].
    intros r Hr. apply in_map_iff in Hr. destruct Hr as [rs [<- Hrs]].
    rewrite Forall_forall in H. specialize (H rs Hrs).
    replace (wrong_fields fieldnames (record rs)) with (@nil string);
      [reflexivity|].
    symmetry. apply wrong_fields_nil. intros k Hk.
    apply record_keys in Hk. destruct Hk as [->|[->|Hk]].
    + apply record_keys. now left.
    + apply record_keys. right. now left.
    + now apply H.
  - intros rs k _ N. unfold Dict.get_default.
    now rewrite (get_not_In_keys _ _ N).
  - intros H. apply Exists_exists in H. destruct H as [rs [Hrs [c [Hc N]]]].
    destruct (find _ (map record rest)) as [r|] eqn:F.
    + apply find_some in F. destruct F as [_ F].
      exists (wrong_fields fieldnames r). repeat split.
      * intros E. rewrite E in F. discriminate.
      * apply Forall_forall. intros k Hk.
        now apply wrong_fields_outside in Hk.
    + exfalso.
      assert (In c (wrong_fields fieldnames (record rs))) as Hin.
      { apply wrong_fields_outside. split; [|assumption].
        apply record_keys. right. now right. }
      pose proof (find_none _ _ F (record rs) (in_map record _ _ Hrs)) as F'.
      cbv beta in F'.
      destruct (wrong_fields fieldnames (record rs)); [destruct Hin|].
      discriminate.
Qed.

Lemma header_from_first_resume_witness :
  csv_content (map record [Script.ann; Script.bob])
  = inr (report_text (Dict.keys (record Script.ann))
                     (map record [Script.ann; Script.bob]))
  /\ exists wrong,
       wrong <> []
       /\ Forall (fun k => ~ In k (Dict.keys (record Script.bob))) wrong
       /\ csv_content (map record [Script.bob; Script.ann])
          = inl (ValueError wrong).
Proof.
  split.
  - apply (proj1 (header_from_first_resume Script.ann [Script.bob])).
    constructor; [|constructor].
    intros c [<-|[]]. vm_compute. right. right. now left.
  - apply (proj2 (proj2 (header_from_first_resume Script.bob [Script.ann]))).
    constructor. exists "X". split.
    + now left.
    + vm_compute. intros [H|[H|[H|[]]]]; discriminate.
Defined.

(** ** C2 *)

(** C2, as stated, fails: asked to score on [Python] alone, the
    provider also returns a score for [Java]; that score is not
    dropped, it gets a column of its own and counts in the total. *)
Lemma unmatched_criterion_is_reported :
  result
    (score_resumes
       (Script.env Script.page Script.page Script.key (Raised "unused")
          [Returned (Some Script.dee)])
       ["Python"] [Script.pdf "dee.pdf"] [])
  = inr {| content :=
             "Candidate Name,Python,Java,Total Score" ++ cr ++ nl
             ++ "Dee,9,3,12" ++ cr ++ nl;
           media_type := "text/csv";
           headers := [("Content-Disposition",
                        "attachment; filename=resume-scoring.csv")];
           status_code := 200 |}.
Proof. vm_compute. reflexivity. Qed.

(** C2 (amended).  [score_resumes] never compares a returned criterion
    with the criteria it was given.  Whenever it produces a report,
    every criterion returned for a resume, whether it matches one of
    the given criteria or not, is a key of that resume's record and a
    column of the header, which is made of the keys of the first
    record; the cell under it holds the last score returned for it
    (the total, under the name [Total Score]).  Nothing is dropped and
    nothing is rewritten. *)
Theorem returned_criteria_are_columns (env : Env) (criteria : list string)
    (file_list : list UploadFile) (w w' : list event) (response : Response) :
  score_resumes env criteria file_list w = (inr response, w') ->
  exists replies,
    List.length replies = List.length file_list
    /\ Forall (scoring_reply env) replies
    /\ csv_content (map record replies) = inr (content response)
    /\ forall rs c,
         In rs replies -> In c (map criterion (criterion_scores rs)) ->
         exists first s,
           hd_error replies = Some first
           /\ content response
              = report_text (Dict.keys (record first)) (map record replies)
           /\ In c (Dict.keys (record first))
           /\ last_score c rs = Some s
           /\ Dict.get_default c Csv.restval (record rs)
              = VInt (if String.eqb c "Total Score"
                      then total_score rs else s).
Proof.
  rewrite score_resumes_run.
  destruct (score_files env criteria file_list [] w) as [[e|rows] w1] eqn:S;
    [discriminate|].
  destruct (csv_content rows) as [e|text] eqn:C; [discriminate|].
  intros E. injection E as <- _. cbn [content].
  apply score_files_records in S. destruct S as [replies [-> [L R]]].
  cbn [app] in C. exists replies. repeat split; try assumption.
  intros rs c Hrs Hc.
  destruct replies as [|first rest]; [destruct Hrs|].
  cbn [map] in C. apply csv_content_produced in C. destruct C as [-> F].
  destruct (last_score c rs) as [s|] eqn:LS;
    [|now apply last_score_returned in Hc].
  exists first, s. repeat split.
  - destruct Hrs as [<-|Hrs].
    + apply record_keys. right. now right.
    + rewrite Forall_forall in F. apply (F (record rs)).
      * now apply in_map.
      * apply record_keys. right. now right.
  - unfold Dict.get_default. rewrite record_get, LS.
    now destruct (String.eqb c "Total Score").
Qed.

Lemma returned_criteria_are_columns_witness :
  exists replies,
    List.length replies = 1%nat
    /\ Forall
         (scoring_reply
            (Script.env Script.page Script.page Script.key (Raised "unused")
               [Returned (Some Script.dee)]))
         replies
    /\ csv_content (map record replies)
       = inr ("Candidate Name,Python,Java,Total Score" ++ cr ++ nl
              ++ "Dee,9,3,12" ++ cr ++ nl)
    /\ forall rs c,
         In rs replies -> In c (map criterion (criterion_scores rs)) ->
         exists first s,
           hd_error replies = Some first
           /\ "Candidate Name,Python,Java,Total Score" ++ cr ++ nl
              ++ "Dee,9,3,12" ++ cr ++ nl
              = report_text (Dict.keys (record first)) (map record replies)
           /\ In c (Dict.keys (record first))
           /\ last_score c rs = Some s
           /\ Dict.get_default c Csv.restval (record rs)
              = VInt (if String.eqb c "Total Score"
                      then total_score rs else s).
Proof.
  apply (returned_criteria_are_columns
           (Script.env Script.page Script.page Script.key (Raised "unused")
              [Returned (Some Script.dee)])
           ["Python"] [Script.pdf "dee.pdf"] []
           (events
              (score_resumes
                 (Script.env Script.page Script.page Script.key
                    (Raised "unused") [Returned (Some Script.dee)])
                 ["Python"] [Script.pdf "dee.pdf"] []))
           {| content :=
                "Candidate Name,Python,Java,Total Score" ++ cr ++ nl
                ++ "Dee,9,3,12" ++ cr ++ nl;
              media_type := "text/csv";
              headers := [("Content-Disposition",
                           "attachment; filename=resume-scoring.csv")];
              status_code := 200 |}).
  vm_compute. reflexivity.
Defined.

(** ** C3 *)

(** C3.  With a client at hand, [extract_job_criteria] fails with the
    400 error [Invalid file. Please upload a valid job description.]
    if and only if the provider returned an empty list of criteria,
    and it returns a value if and only if the provider returned a
    list of one or more criteria, which it hands back as it is, in
    the provider's order. *)
Theorem extract_job_criteria_empty_iff (env : Env)
    (job_description key : string) (w : list event) :
  OPENAI_API_KEY env = Some key ->
  let reply :=
    parse env w MODEL (messages criteria_system_message job_description)
      CriteriaFormat in
  (result (extract_job_criteria env job_description w)
   = inl (HTTPException 400 invalid_job_description)
   <-> exists response, reply = Returned (Some response)
                        /\ criteria response = [])
  /\ (forall response,
        result (extract_job_criteria env job_description w) = inr response
        <-> reply = Returned (Some response)
            /\ (1 <= List.length (criteria response))%nat).
Proof.
  intros K reply. unfold extract_job_criteria, bind, result.
  rewrite call_gpt_api_run, K. cbv zeta. fold reply.
  destruct reply as [e|[[cs]|]]; cbn [fst criteria].
  - split; [|intros response]; split;
      try (intros E; discriminate E);
      try (intros [response [E _]]; discriminate E);
      intros [E _]; discriminate E.
  - destruct cs as [|c cs]; cbn [List.length Nat.eqb].
    + unfold logging_error, emit, raise. cbn [fst].
      split; [|intros response]; split.
      * intros _. now exists {| criteria := [] |}.
      * reflexivity.
      * discriminate.
      * intros [E L]. injection E as <-. simpl in L. lia.
    + unfold ret. cbn [fst].
      split; [|intros response]; split.
      * discriminate.
      * intros [response [E N]]. injection E as <-. discriminate N.
      * intros E. injection E as <-. split; [reflexivity | simpl; lia].
      * intros [E _]. now injection E as <-.
  - split; [|intros response]; split;
      try (intros E; discriminate E);
      try (intros [response [E _]]; discriminate E);
      intros [E _]; discriminate E.
Qed.

Lemma extract_job_criteria_empty_iff_witness :
  (result
     (extract_job_criteria
        (Script.env Script.page Script.page Script.key
           (Returned (Some {| criteria := [] |})) [])
        "Milk, eggs, bread" [])
   = inl (HTTPException 400 invalid_job_description)
   <-> exists response,
         Returned (Some {| criteria := [] |}) = Returned (Some response)
         /\ criteria response = [])
  /\ (forall response,
        result
          (extract_job_criteria
             (Script.env Script.page Script.page Script.key
                (Returned (Some {| criteria := [] |})) [])
             "Milk, eggs, bread" [])
        = inr response
        <-> Returned (Some {| criteria := [] |}) = Returned (Some response)
            /\ (1 <= List.length (criteria response))%nat).
Proof.
  apply (extract_job_criteria_empty_iff
           (Script.env Script.page Script.page Script.key
              (Returned (Some {| criteria := [] |})) [])
           "Milk, eggs, bread" "sk-test" []).
  reflexivity.
Defined.

(** ** C4 *)

(** C4.  Every row gathered by [score_resumes] is the record of one
    reply of the scoring service, and its [Total Score] is the sum of
    all the values of that reply's score dictionary, which has a key
    for every criterion returned.  The sum does not look at the
    columns of the report: under whatever [fieldnames] the row is
    written, the cell in a [Total Score] column is that sum. *)
Theorem total_score_sums_every_score (env : Env) (criteria : list string)
    (file_list : list UploadFile) (w w' : list event)
    (resume_scores : list (Dict.t value)) :
  score_files env criteria file_list [] w = (inr resume_scores, w') ->
  exists replies,
    resume_scores = map record replies
    /\ List.length replies = List.length file_list
    /\ Forall (scoring_reply env) replies
    /\ Forall
         (fun rs =>
            let total := sum (Dict.values (scores_by_criterion rs)) in
            Dict.get "Total Score" (record rs) = Some (VInt total)
            /\ (forall c, In c (map criterion (criterion_scores rs))
                          <-> In c (Dict.keys (scores_by_criterion rs)))
            /\ (forall fieldnames i,
                  nth_error fieldnames i = Some "Total Score" ->
                  nth_error (cells fieldnames (record rs)) i
                  = Some (VInt total)))
         replies.
Proof.
  intros S. apply score_files_records in S.
  destruct S as [replies [E [L R]]]. exists replies.
  repeat split; try assumption.
  apply Forall_forall. intros rs _.
  assert (Dict.get "Total Score" (record rs)
          = Some (VInt (sum (Dict.values (scores_by_criterion rs))))) as G
    by (rewrite record_get; reflexivity).
  cbv zeta. repeat split.
  - exact G.
  - apply scores_by_criterion_keys.
  - apply scores_by_criterion_keys.
  - intros fieldnames i N. unfold cells.
    rewrite (map_nth_error _ _ _ N). unfold Dict.get_default.
    now rewrite G.
Qed.

Lemma total_score_sums_every_score_witness :
  exists replies,
    [ [("Candidate Name", VStr "Bob"); ("Y", VInt 5); ("Total Score", VInt 5)];
      [("Candidate Name", VInt 3); ("Z", VInt 2); ("Total Score", VInt 6)] ]
    = map record replies
    /\ List.length replies = 2%nat
    /\ Forall
         (scoring_reply
            (Script.env Script.page Script.page Script.key (Raised "unused")
               [Returned (Some Script.bob); Returned (Some Script.cyd)]))
         replies
    /\ Forall
         (fun rs =>
            let total := sum (Dict.values (scores_by_criterion rs)) in
            Dict.get "Total Score" (record rs) = Some (VInt total)
            /\ (forall c, In c (map criterion (criterion_scores rs))
                          <-> In c (Dict.keys (scores_by_criterion rs)))
            /\ (forall fieldnames i,
                  nth_error fieldnames i = Some "Total Score" ->
                  nth_error (cells fieldnames (record rs)) i
                  = Some (VInt total)))
         replies.
Proof.
  apply (total_score_sums_every_score
           (Script.env Script.page Script.page Script.key (Raised "unused")
              [Returned (Some Script.bob); Returned (Some Script.cyd)])
           ["Y"; "Z"] [Script.pdf "bob.pdf"; Script.pdf "cyd.PDF"] []
           (events
              (score_files
                 (Script.env Script.page Script.page Script.key
                    (Raised "unused")
                    [Returned (Some Script.bob); Returned (Some Script.cyd)])
                 ["Y"; "Z"] [Script.pdf "bob.pdf"; Script.pdf "cyd.PDF"]
                 [] []))).
  vm_compute. reflexivity.
Defined.

(** ** C5 *)

(** C5, as stated, fails for the parsers: a PDF that its parser
    rejects and a DOCX that its parser rejects are two parser-level
    failures, and [extract_text_from_file] raises a different detail
    for each. *)
Lemma parser_failures_differ_by_format :
  result
    (extract_text_from_file
       (Script.env (Raised "EOF marker not found") Script.page Script.key
          (Raised "unused") [])
       [] "cv.pdf" [])
  = inl (HTTPException 500 "Error extracting text from PDF.")
  /\ result
       (extract_text_from_file
          (Script.env Script.page (Raised "File is not a zip file") Script.key
             (Raised "unused") [])
          [] "cv.docx" [])
     = inl (HTTPException 500 "Error extracting text from the document.")
  /\ result
       (extract_text_from_file
          (Script.env (Raised "EOF marker not found") Script.page Script.key
             (Raised "unused") [])
          [] "cv.pdf" [])
     <> result
          (extract_text_from_file
             (Script.env Script.page (Raised "File is not a zip file")
                Script.key (Raised "unused") [])
             [] "cv.docx" []).
Proof.
  split; [reflexivity|]. split; [reflexivity|].
  intros E. vm_compute in E. discriminate E.
Qed.

(** C5 (amended).  What the caller receives when a parser or the
    provider fails never holds the text of the failure.  When the PDF
    parser raises, [extract_text_from_pdf], and [extract_text_from_file]
    on a [.pdf] name, raise the 500 error [Error extracting text from
    PDF.]; when the DOCX parser raises, [extract_text_from_docx], and
    [extract_text_from_file] on a [.docx] name, raise the 500 error
    [Error extracting text from the document.]; when the provider
    raises, [call_gpt_api] raises the 500 error [An unexpected error
    occurred...].  So two failures of one format, and two failures of
    the provider, give the caller the same error whatever their
    texts, files and histories.  Each time the text of the failure is
    in the one log record the run adds, and nowhere else. *)
Theorem failure_text_stays_on_server :
  (forall env file_bytes w e,
      PdfReader env file_bytes = Raised e ->
      extract_text_from_pdf env file_bytes w
      = (inl (HTTPException 500 pdf_failed),
         (w ++ [PdfReaderCalled file_bytes;
                Logged ERROR (pdf_failed ++ " : " ++ e)])%list))
  /\ (forall env file_bytes w e,
        Document env file_bytes = Raised e ->
        extract_text_from_docx env file_bytes w
        = (inl (HTTPException 500 docx_failed),
           (w ++ [DocumentCalled file_bytes;
                  Logged ERROR (docx_failed ++ " : " ++ e)])%list))
  /\ (forall env file_bytes file_name w e,
        ends_with_ignoring_case file_name ".pdf" ->
        PdfReader env file_bytes = Raised e ->
        extract_text_from_file env file_bytes file_name w
        = (inl (HTTPException 500 pdf_failed),
           (w ++ [PdfReaderCalled file_bytes;
                  Logged ERROR (pdf_failed ++ " : " ++ e)])%list))
  /\ (forall env file_bytes file_name w e,
        ends_with_ignoring_case file_name ".docx" ->
        Document env file_bytes = Raised e ->
        extract_text_from_file env file_bytes file_name w
        = (inl (HTTPException 500 docx_failed),
           (w ++ [DocumentCalled file_bytes;
                  Logged ERROR (docx_failed ++ " : " ++ e)])%list))
  /\ (forall env system_message user_message fmt key w e,
        OPENAI_API_KEY env = Some key ->
        parse env w MODEL (messages system_message user_message) fmt
        = Raised e ->
        call_gpt_api env system_message user_message fmt w
        = (inl (HTTPException 500 llm_failed),
           (w ++ [ParseCalled MODEL (messages system_message user_message)
                    fmt;
                  Logged ERROR
                    ("OpenAI GPT API call failed while parsing the response : "
                     ++ e)])%list))
  /\ (forall env1 env2 bytes1 bytes2 name1 name2 w1 w2 e1 e2,
        ends_with_ignoring_case name1 ".pdf" ->
        ends_with_ignoring_case name2 ".pdf" ->
        PdfReader env1 bytes1 = Raised e1 ->
        PdfReader env2 bytes2 = Raised e2 ->
        result (extract_text_from_file env1 bytes1 name1 w1)
        = result (extract_text_from_file env2 bytes2 name2 w2))
  /\ (forall env1 env2 bytes1 bytes2 name1 name2 w1 w2 e1 e2,
        ends_with_ignoring_case name1 ".docx" ->
        ends_with_ignoring_case name2 ".docx" ->
        Document env1 bytes1 = Raised e1 ->
        Document env2 bytes2 = Raised e2 ->
        result (extract_text_from_file env1 bytes1 name1 w1)
        = result (extract_text_from_file env2 bytes2 name2 w2))
  /\ (forall env1 env2 system1 system2 user1 user2 fmt key1 key2
             w1 w2 e1 e2,
        OPENAI_API_KEY env1 = Some key1 ->
        OPENAI_API_KEY env2 = Some key2 ->
        parse env1 w1 MODEL (messages system1 user1) fmt = Raised e1 ->
        parse env2 w2 MODEL (messages system2 user2) fmt = Raised e2 ->
        result (call_gpt_api env1 system1 user1 fmt w1)
        = result (call_gpt_api env2 system2 user2 fmt w2)).
Proof.
  assert (forall env file_bytes w e,
            PdfReader env file_bytes = Raised e ->
            extract_text_from_pdf env file_bytes w
            = (inl (HTTPException 500 pdf_failed),
               (w ++ [PdfReaderCalled file_bytes;
                      Logged ERROR (pdf_failed ++ " : " ++ e)])%list)) as Pdf.
  { intros env b w e H. unfold extract_text_from_pdf, bind, emit. rewrite H.
    unfold logging_error, emit, raise. now rewrite <- app_assoc. }
  assert (forall env file_bytes w e,
            Document env file_bytes = Raised e ->
            extract_text_from_docx env file_bytes w
            = (inl (HTTPException 500 docx_failed),
               (w ++ [DocumentCalled file_bytes;
                      Logged ERROR (docx_failed ++ " : " ++ e)])%list)) as Docx.
  { intros env b w e H. unfold extract_text_from_docx, bind, emit. rewrite H.
    unfold logging_error, emit, raise. now rewrite <- app_assoc. }
  assert (forall env file_bytes file_name w e,
            ends_with_ignoring_case file_name ".pdf" ->
            PdfReader env file_bytes = Raised e ->
            extract_text_from_file env file_bytes file_name w
            = (inl (HTTPException 500 pdf_failed),
               (w ++ [PdfReaderCalled file_bytes;
                      Logged ERROR (pdf_failed ++ " : " ++ e)])%list)) as FPdf.
  { intros env b name w e N H. apply endswith_lower in N.
    unfold extract_text_from_file. rewrite N. now apply Pdf. }
  assert (forall env file_bytes file_name w e,
            ends_with_ignoring_case file_name ".docx" ->
            Document env file_bytes = Raised e ->
            extract_text_from_file env file_bytes file_name w
            = (inl (HTTPException 500 docx_failed),
               (w ++ [DocumentCalled file_bytes;
                      Logged ERROR (docx_failed ++ " : " ++ e)])%list)) as FDocx.
  { intros env b name w e N H. apply endswith_lower in N.
    unfold extract_text_from_file.
    destruct (Str.endswith (Str.lower name) ".pdf") eqn:P.
    - apply pdf_not_docx in P. congruence.
    - rewrite N. now apply Docx. }
  split; [exact Pdf|]. split; [exact Docx|].
  split; [exact FPdf|]. split; [exact FDocx|].
  split; [|split; [|split]].
  - intros env s u fmt key w e K L.
    rewrite call_gpt_api_run, K, L. cbv zeta. now rewrite <- app_assoc.
  - intros env1 env2 b1 b2 n1 n2 w1 w2 e1 e2 N1 N2 P1 P2.
    now rewrite (FPdf env1 b1 n1 w1 e1 N1 P1), (FPdf env2 b2 n2 w2 e2 N2 P2).
  - intros env1 env2 b1 b2 n1 n2 w1 w2 e1 e2 N1 N2 D1 D2.
    now rewrite (FDocx env1 b1 n1 w1 e1 N1 D1),
                (FDocx env2 b2 n2 w2 e2 N2 D2).
  - intros env1 env2 s1 s2 u1 u2 fmt k1 k2 w1 w2 e1 e2 K1 K2 L1 L2.
    now rewrite !call_gpt_api_run, K1, K2, L1, L2.
Qed.

Lemma failure_text_stays_on_server_witness :
  extract_text_from_file
    (Script.env (Raised "EOF marker not found") Script.page Script.key
       (Returned (Some {| criteria := ["Python"] |})) [])
    [] "cv.PDF" []
  = (inl (HTTPException 500 "Error extracting text from PDF."),
     [PdfReaderCalled [];
      Logged ERROR "Error extracting text from PDF. : EOF marker not found"])
  /\ extract_text_from_file
       (Script.env Script.page (Raised "File is not a zip file") Script.key
          (Returned (Some {| criteria := ["Python"] |})) [])
       [] "cv.docx" []
     = (inl (HTTPException 500 "Error extracting text from the document."),
        [DocumentCalled [];
         Logged ERROR
           "Error extracting text from the document. : File is not a zip file"])
  /\ call_gpt_api
       (Script.env Script.page Script.page Script.key
          (Raised "Incorrect API key provided: sk-live-42") [])
       "system" "user" CriteriaFormat []
     = (inl (HTTPException 500
               "An unexpected error occurred while processing your request. Please try again later."),
        [ParseCalled MODEL (messages "system" "user") CriteriaFormat;
         Logged ERROR
           "OpenAI GPT API call failed while parsing the response : Incorrect API key provided: sk-live-42"])
  /\ result
       (extract_text_from_file
          (Script.env (Raised "EOF marker not found") Script.page Script.key
             (Raised "unused") [])
          [] "cv.PDF" [])
     = result
         (extract_text_from_file
            (Script.env (Raised "Invalid cross-reference table") Script.page
               None (Raised "unused") [])
            [] "letter.pdf" [Logged INFO "started"]).
Proof.
  destruct failure_text_stays_on_server
    as [_ [_ [FPdf [FDocx [Llm [TwoPdf _]]]]]].
  split; [|split; [|split]].
  - apply (FPdf (Script.env (Raised "EOF marker not found") Script.page
                   Script.key (Returned (Some {| criteria := ["Python"] |}))
                   [])
             [] "cv.PDF" [] "EOF marker not found").
    + apply endswith_lower. reflexivity.
    + reflexivity.
  - apply (FDocx (Script.env Script.page (Raised "File is not a zip file")
                    Script.key (Returned (Some {| criteria := ["Python"] |}))
                    [])
             [] "cv.docx" [] "File is not a zip file").
    + apply endswith_lower. reflexivity.
    + reflexivity.
  - apply (Llm (Script.env Script.page Script.page Script.key
                  (Raised "Incorrect API key provided: sk-live-42") [])
             "system" "user" CriteriaFormat "sk-test" []
             "Incorrect API key provided: sk-live-42"); reflexivity.
  - apply (TwoPdf _ _ [] [] "cv.PDF" "letter.pdf" [] [Logged INFO "started"]
             "EOF marker not found" "Invalid cross-reference table").
    + apply endswith_lower. reflexivity.
    + apply endswith_lower. reflexivity.
    + reflexivity.
    + reflexivity.
Defined.

(** ** C6 *)

(** C6.  For a file name that ends neither in [.pdf] nor in [.docx],
    whatever the case of its letters, [extract_text_from_file] raises
    the 400 error [Unsupported file format. Only PDF and DOCX are
    supported.]; the only event of the run is the log record of that
    message, so that neither parser is called on the bytes. *)
Theorem unsupported_extension_rejected (env : Env) (file_bytes : bytes)
    (file_name : string) (w : list event) :
  ~ ends_with_ignoring_case file_name ".pdf" ->
  ~ ends_with_ignoring_case file_name ".docx" ->
  result (extract_text_from_file env file_bytes file_name w)
  = inl (HTTPException 400 unsupported_format)
  /\ events (extract_text_from_file env file_bytes file_name w)
     = (w ++ [Logged ERROR unsupported_format])%list
  /\ (forall b,
        ~ In (PdfReaderCalled b)
             (skipn (List.length w)
                (events (extract_text_from_file env file_bytes file_name w)))
        /\ ~ In (DocumentCalled b)
                (skipn (List.length w)
                   (events (extract_text_from_file env file_bytes file_name w)))).
Proof.
  intros Npdf Ndocx. unfold extract_text_from_file.
  destruct (Str.endswith (Str.lower file_name) ".pdf") eqn:Epdf.
  { exfalso. now apply Npdf, endswith_lower. }
  destruct (Str.endswith (Str.lower file_name) ".docx") eqn:Edocx.
  { exfalso. now apply Ndocx, endswith_lower. }
  unfold bind, logging_error, emit, raise, result, events. cbn [fst snd].
  repeat split.
  - rewrite skipn_app, skipn_all, Nat.sub_diag. cbn [app skipn].
    intros [H|[]]. discriminate H.
  - rewrite skipn_app, skipn_all, Nat.sub_diag. cbn [app skipn].
    intros [H|[]]. discriminate H.
Qed.

Lemma unsupported_extension_rejected_witness :
  result (extract_text_from_file (Script.env Script.page Script.page Script.key
                                    (Raised "unused") [])
            [] "notes.TXT" [])
  = inl (HTTPException 400 unsupported_format)
  /\ events (extract_text_from_file (Script.env Script.page Script.page
                                       Script.key (Raised "unused") [])
               [] "notes.TXT" [])
     = ([] ++ [Logged ERROR unsupported_format])%list
  /\ (forall b,
        ~ In (PdfReaderCalled b)
             (skipn (List.length (@nil event))
                (events (extract_text_from_file
                           (Script.env Script.page Script.page Script.key
                              (Raised "unused") [])
                           [] "notes.TXT" [])))
        /\ ~ In (DocumentCalled b)
                (skipn (List.length (@nil event))
                   (events (extract_text_from_file
                              (Script.env Script.page Script.page Script.key
                                 (Raised "unused") [])
                              [] "notes.TXT" [])))).
Proof.
  apply (unsupported_extension_rejected
           (Script.env Script.page Script.page Script.key (Raised "unused") [])
           [] "notes.TXT" []).
  - intros H. apply endswith_lower in H. vm_compute in H. discriminate H.
  - intros H. apply endswith_lower in H. vm_compute in H. discriminate H.
Defined.

(** ** C7 *)

(** C7, as stated, fails: asked for the one criterion [Python],
    [score_resume] returns a reply of two entries, one of them with
    the score nine. *)
Lemma reply_outside_rubric_returned :
  result
    (score_resume
       (Script.env Script.page Script.page Script.key (Raised "unused")
          [Returned (Some Script.dee)])
       ["Python"] "Curriculum vitae" [])
  = inr (Some Script.dee)
  /\ (List.length ["Python"] < List.length (criterion_scores Script.dee))%nat
  /\ In (Script.entry "Python" 9) (criterion_scores Script.dee)
  /\ ~ (0 <= score (Script.entry "Python" 9) <= 5).
Proof.
  repeat split.
  - simpl. lia.
  - now left.
  - simpl. lia.
Qed.

(** C7 (amended).  With a client at hand, [score_resume] returns what
    the provider parsed for the scoring request, as it is.  Each score
    in it is an integer; the code checks neither the number of entries
    against the number of criteria nor the range of a score. *)
Theorem score_resume_returns_reply (env : Env) (criteria : list string)
    (resume_content key : string) (w : list event)
    (reply : option ResumeScore) :
  OPENAI_API_KEY env = Some key ->
  parse env w MODEL
    (messages (scoring_system_message (Str.join nl criteria))
              ("Resume: " ++ resume_content))
    ResumeScoreFormat
  = Returned reply ->
  result (score_resume env criteria resume_content w) = inr reply.
Proof.
  intros K P. unfold score_resume. now rewrite call_gpt_api_run, K, P.
Qed.

Lemma score_resume_returns_reply_witness :
  result
    (score_resume
       (Script.env Script.page Script.page Script.key (Raised "unused")
          [Returned (Some Script.dee)])
       ["Python"] "Curriculum vitae" [])
  = inr (Some Script.dee).
Proof.
  apply (score_resume_returns_reply
           (Script.env Script.page Script.page Script.key (Raised "unused")
              [Returned (Some Script.dee)])
           ["Python"] "Curriculum vitae" "sk-test" [] (Some Script.dee));
    reflexivity.
Defined.

(** ** C8 *)

(** C8.  On an empty batch of files [score_resumes] returns, with no
    event, the response of status 200 whose body is the empty string,
    whose media type is [text/csv] and whose only header is
    [Content-Disposition: attachment; filename=resume-scoring.csv]. *)
Theorem empty_batch_empty_csv (env : Env) (criteria : list string)
    (w : list event) :
  score_resumes env criteria [] w
  = (inr {| content := EmptyString;
            media_type := "text/csv";
            headers := [("Content-Disposition",
                         "attachment; filename=resume-scoring.csv")];
            status_code := 200 |},
     w).
Proof. reflexivity. Qed.

(** ** C9 *)

(** Adding up a list of integers from the right does not depend on
    the order of the list. *)
Lemma fold_right_add_perm (l l' : list Z) :
  Permutation l l' -> fold_right Z.add 0 l = fold_right Z.add 0 l'.
Proof.
  induction 1 as [|x l l' _ IH|x y l|l l' l'' _ IH1 _ IH2]; simpl.
  - reflexivity.
  - now rewrite IH.
  - lia.
  - now rewrite IH1.
Qed.

Lemma sum_fold_right (l : list Z) : sum l = fold_right Z.add 0 l.
Proof.
  induction l as [|x l IH]; [reflexivity|].
  rewrite sum_cons, IH. reflexivity.
Qed.

(** The total in terms of the reply alone: over the criteria of the
    reply, each taken once, the last score of each, added up. *)
Lemma total_score_nodup (rs : ResumeScore) :
  total_score rs
  = fold_right Z.add 0
      (map (fun c => match last_score c rs with Some s => s | None => 0 end)
           (nodup string_dec (map criterion (criterion_scores rs)))).
Proof.
  rewrite total_score_distinct, sum_fold_right.
  apply fold_right_add_perm, Permutation_map, NoDup_Permutation.
  - apply scores_by_criterion_NoDup.
  - apply NoDup_nodup.
  - intros c. rewrite nodup_In. apply scores_by_criterion_keys.
Qed.

(** C9.  When a criterion is returned several times for one resume,
    the entry after which it does not come back decides: the score
    dictionary and the record hold that entry's score under the
    criterion (under the name [Total Score] the record holds the
    total), and no key is repeated in either.  The total is the number
    obtained by taking the criteria of the reply once each and adding
    up, with integer addition, the last score returned for each: a
    criterion returned several times counts once, with its last
    score. *)
Theorem repeated_criterion_last_wins (rs : ResumeScore)
    (before after : list CriterionScore) (x : CriterionScore) :
  criterion_scores rs = (before ++ x :: after)%list ->
  (forall y, In y after -> criterion y <> criterion x) ->
  Dict.get (criterion x) (scores_by_criterion rs) = Some (score x)
  /\ Dict.get (criterion x) (record rs)
     = Some (VInt (if String.eqb (criterion x) "Total Score"
                   then total_score rs else score x))
  /\ NoDup (Dict.keys (scores_by_criterion rs))
  /\ NoDup (Dict.keys (record rs))
  /\ (forall c, In c (Dict.keys (scores_by_criterion rs))
                <-> In c (map criterion (criterion_scores rs)))
  /\ total_score rs
     = fold_right Z.add 0
         (map (fun c => match last_score c rs with
                        | Some s => s
                        | None => 0
                        end)
              (nodup string_dec (map criterion (criterion_scores rs))))
  /\ Dict.get "Total Score" (record rs)
     = Some (VInt
               (fold_right Z.add 0
                  (map (fun c => match last_score c rs with
                                 | Some s => s
                                 | None => 0
                                 end)
                       (nodup string_dec
                          (map criterion (criterion_scores rs))))))
  /\ last_score (criterion x) rs = Some (score x).
Proof.
  intros E H. pose proof (last_score_split rs before after x E H) as L.
  repeat split.
  - now rewrite scores_by_criterion_get.
  - rewrite record_get, L.
    now destruct (String.eqb (criterion x) "Total Score").
  - apply scores_by_criterion_NoDup.
  - apply record_NoDup.
  - apply scores_by_criterion_keys.
  - apply scores_by_criterion_keys.
  - apply total_score_nodup.
  - rewrite record_get, <- total_score_nodup. reflexivity.
  - exact L.
Qed.

Lemma repeated_criterion_last_wins_witness :
  (Dict.get "Z" (scores_by_criterion Script.cyd) = Some 2
   /\ Dict.get "Z" (record Script.cyd) = Some (VInt 2)
   /\ NoDup (Dict.keys (scores_by_criterion Script.cyd))
   /\ NoDup (Dict.keys (record Script.cyd))
   /\ (forall c, In c (Dict.keys (scores_by_criterion Script.cyd))
                 <-> In c (map criterion (criterion_scores Script.cyd)))
   /\ total_score Script.cyd = 6
   /\ Dict.get "Total Score" (record Script.cyd) = Some (VInt 6)
   /\ last_score "Z" Script.cyd = Some 2)
  /\ fold_right Z.add 0 (map score (criterion_scores Script.cyd)) = 11.
Proof.
  split; [|reflexivity].
  apply (repeated_criterion_last_wins Script.cyd
           [Script.entry "Z" 5; Script.entry "Total Score" 1;
            Script.entry "Candidate Name" 3]
           [] (Script.entry "Z" 2)).
  - reflexivity.
  - intros y [].
Defined.

(** ** C10 *)

(** C10.  The two fixed column names are open to the criteria.  When
    [Candidate Name] is returned as a criterion, the record holds its
    last score under that name, in place of the candidate's name,
    which it holds otherwise.  When [Total Score] is returned as a
    criterion, the record holds the total under that name, and the
    total is that criterion's last score plus the scores of the other
    criteria. *)
Theorem reserved_names_collide (rs : ResumeScore) :
  (forall s, last_score "Candidate Name" rs = Some s ->
             Dict.get "Candidate Name" (record rs) = Some (VInt s))
  /\ (last_score "Candidate Name" rs = None ->
      Dict.get "Candidate Name" (record rs)
      = Some (VStr (candidate_name rs)))
  /\ (forall s, last_score "Total Score" rs = Some s ->
        Dict.get "Total Score" (record rs) = Some (VInt (total_score rs))
        /\ total_score rs
           = s + sum (Dict.values
                        (filter (fun kv =>
                                   negb (String.eqb (fst kv) "Total Score"))
                                (scores_by_criterion rs)))).
Proof.
  repeat split.
  - intros s L. rewrite record_get, L. reflexivity.
  - intros L. rewrite record_get, L. reflexivity.
  - rewrite record_get. reflexivity.
  - unfold total_score. apply sum_values_split.
    + apply scores_by_criterion_NoDup.
    + now rewrite scores_by_criterion_get.
Qed.

Lemma reserved_names_collide_witness :
  Dict.get "Candidate Name" (record Script.cyd) = Some (VInt 3)
  /\ Dict.get "Candidate Name" (record Script.bob) = Some (VStr "Bob")
  /\ Dict.get "Total Score" (record Script.cyd) = Some (VInt 6)
  /\ total_score Script.cyd = 1 + 5
  /\ csv_content [record Script.cyd]
     = inr ("Candidate Name,Z,Total Score" ++ cr ++ nl ++ "3,2,6" ++ cr ++ nl).
Proof.
  split; [|split; [|split; [|split]]].
  - apply (proj1 (reserved_names_collide Script.cyd) 3). reflexivity.
  - apply (proj1 (proj2 (reserved_names_collide Script.bob))). reflexivity.
  - apply (proj2 (proj2 (reserved_names_collide Script.cyd)) 1). reflexivity.
  - apply (proj2 (proj2 (reserved_names_collide Script.cyd)) 1). reflexivity.
  - reflexivity.
Defined.


(* ================================================================= *)
(** * Further properties of the code *)

(** ** Runs of the text extractors *)

Lemma extract_text_from_pdf_run (env : Env) (file_bytes : bytes)
    (w : list event) :
  extract_text_from_pdf env file_bytes w
  = match PdfReader env file_bytes with
    | Returned pages =>
        (inr (Str.join nl pages), (w ++ [PdfReaderCalled file_bytes])%list)
    | Raised e =>
        (inl (HTTPException 500 pdf_failed),
         (w ++ [PdfReaderCalled file_bytes;
                Logged ERROR (pdf_failed ++ " : " ++ e)])%list)
    end.
Proof.
  unfold extract_text_from_pdf, bind, emit.
  destruct (PdfReader env file_bytes); [|reflexivity].
  unfold logging_error, emit, raise. now rewrite <- app_assoc.
Qed.

Lemma extract_text_from_docx_run (env : Env) (file_bytes : bytes)
    (w : list event) :
  extract_text_from_docx env file_bytes w
  = match Document env file_bytes with
    | Returned paragraphs =>
        (inr (Str.join nl paragraphs), (w ++ [DocumentCalled file_bytes])%list)
    | Raised e =>
        (inl (HTTPException 500 docx_failed),
         (w ++ [DocumentCalled file_bytes;
                Logged ERROR (docx_failed ++ " : " ++ e)])%list)
    end.
Proof.
  unfold extract_text_from_docx, bind, emit.
  destruct (Document env file_bytes); [|reflexivity].
  unfold logging_error, emit, raise. now rewrite <- app_assoc.
Qed.

Lemma extract_text_from_file_run (env : Env) (file_bytes : bytes)
    (file_name : string) (w : list event) :
  (ends_with_ignoring_case file_name ".pdf"
   /\ extract_text_from_file env file_bytes file_name w
      = extract_text_from_pdf env file_bytes w)
  \/ (ends_with_ignoring_case file_name ".docx"
      /\ ~ ends_with_ignoring_case file_name ".pdf"
      /\ extract_text_from_file env file_bytes file_name w
         = extract_text_from_docx env file_bytes w)
  \/ (~ ends_with_ignoring_case file_name ".pdf"
      /\ ~ ends_with_ignoring_case file_name ".docx"
      /\ extract_text_from_file env file_bytes file_name w
         = (inl (HTTPException 400 unsupported_format),
            (w ++ [Logged ERROR unsupported_format])%list)).
Proof.
  unfold extract_text_from_file.
  destruct (Str.endswith (Str.lower file_name) ".pdf") eqn:P.
  - left. split; [now apply endswith_lower | reflexivity].
  - assert (~ ends_with_ignoring_case file_name ".pdf") as NP.
    { intros H. apply endswith_lower in H. congruence. }
    destruct (Str.endswith (Str.lower file_name) ".docx") eqn:D.
    + right. left. repeat split; [now apply endswith_lower | exact NP].
    + right. right. repeat split; [exact NP|].
      intros H. apply endswith_lower in H. congruence.
Qed.

Lemma docx_excludes_pdf (file_name : string) :
  ends_with_ignoring_case file_name ".docx" ->
  ~ ends_with_ignoring_case file_name ".pdf".
Proof.
  intros D P. apply endswith_lower in D. apply endswith_lower in P.
  apply pdf_not_docx in P. congruence.
Qed.

(** ** Text extraction *)

(** X1.  For a name that ends in [.pdf], in any case, and bytes the
    PDF parser reads, [extract_text_from_file] returns the texts of the
    pages joined by line feeds, in page order; the PDF parser is called
    once, the DOCX parser is not called and nothing is logged. *)
Theorem pdf_text_is_pages_joined (env : Env) (file_bytes : bytes)
    (file_name : string) (pages : list string) (w : list event) :
  ends_with_ignoring_case file_name ".pdf" ->
  PdfReader env file_bytes = Returned pages ->
  extract_text_from_file env file_bytes file_name w
  = (inr (String.concat nl pages), (w ++ [PdfReaderCalled file_bytes])%list).
Proof.
  intros P R.
  destruct (extract_text_from_file_run env file_bytes file_name w)
    as [[_ E]|[[_ [N _]]|[N _]]]; try contradiction.
  now rewrite E, extract_text_from_pdf_run, R.
Qed.

Lemma pdf_text_is_pages_joined_witness :
  extract_text_from_file
    (Script.env (Returned ["page one"; "page two"]) (Raised "not a zip file")
       Script.key (Raised "unused") [])
    [] "Resume.PdF" []
  = (inr ("page one" ++ nl ++ "page two"), ([] ++ [PdfReaderCalled []])%list).
Proof.
  apply (pdf_text_is_pages_joined
           (Script.env (Returned ["page one"; "page two"])
              (Raised "not a zip file") Script.key (Raised "unused") [])
           [] "Resume.PdF" ["page one"; "page two"] []).
  - apply endswith_lower. reflexivity.
  - reflexivity.
Defined.

(** X2.  For a name that ends in [.docx], in any case, and bytes the
    DOCX parser reads, [extract_text_from_file] returns the texts of
    the paragraphs joined by line feeds, in document order; the DOCX
    parser is called once, the PDF parser is not called and nothing is
    logged. *)
Theorem docx_text_is_paragraphs_joined (env : Env) (file_bytes : bytes)
    (file_name : string) (paragraphs : list string) (w : list event) :
  ends_with_ignoring_case file_name ".docx" ->
  Document env file_bytes = Returned paragraphs ->
  extract_text_from_file env file_bytes file_name w
  = (inr (String.concat nl paragraphs),
     (w ++ [DocumentCalled file_bytes])%list).
Proof.
  intros D R. pose proof (docx_excludes_pdf file_name D) as NP.
  destruct (extract_text_from_file_run env file_bytes file_name w)
    as [[P _]|[[_ [_ E]]|[_ [N _]]]]; try contradiction.
  now rewrite E, extract_text_from_docx_run, R.
Qed.

Lemma docx_text_is_paragraphs_joined_witness :
  extract_text_from_file
    (Script.env (Raised "EOF marker not found") (Returned ["Jane Doe"; "Skills"])
       Script.key (Raised "unused") [])
    [] "cv.pdf.DOCX" []
  = (inr ("Jane Doe" ++ nl ++ "Skills"), ([] ++ [DocumentCalled []])%list).
Proof.
  apply (docx_text_is_paragraphs_joined
           (Script.env (Raised "EOF marker not found")
              (Returned ["Jane Doe"; "Skills"]) Script.key (Raised "unused") [])
           [] "cv.pdf.DOCX" ["Jane Doe"; "Skills"] []).
  - apply endswith_lower. reflexivity.
  - reflexivity.
Defined.

(** X3.  Whatever the file, an error of [extract_text_from_file] is one
    of three [HTTPException]s: the 400 error for a name that ends
    neither in [.pdf] nor in [.docx], the 500 PDF error for a [.pdf]
    name whose parser raised, the 500 document error for a [.docx]
    name whose parser raised. *)
Theorem extract_text_errors (env : Env) (file_bytes : bytes)
    (file_name : string) (w : list event) (e : exn) :
  result (extract_text_from_file env file_bytes file_name w) = inl e ->
  (e = HTTPException 400 unsupported_format
   /\ ~ supported file_name)
  \/ (e = HTTPException 500 pdf_failed
      /\ ends_with_ignoring_case file_name ".pdf"
      /\ exists text, PdfReader env file_bytes = Raised text)
  \/ (e = HTTPException 500 docx_failed
      /\ ends_with_ignoring_case file_name ".docx"
      /\ exists text, Document env file_bytes = Raised text).
Proof.
  unfold result, supported.
  destruct (extract_text_from_file_run env file_bytes file_name w)
    as [[P E]|[[D [NP E]]|[NP [ND E]]]]; rewrite E.
  - rewrite extract_text_from_pdf_run.
    destruct (PdfReader env file_bytes) as [text|pages] eqn:R;
      [|discriminate].
    intros H. injection H as <-. right. left. eauto.
  - rewrite extract_text_from_docx_run.
    destruct (Document env file_bytes) as [text|paragraphs] eqn:R;
      [|discriminate].
    intros H. injection H as <-. right. right. eauto.
  - intros H. injection H as <-. left. split; [reflexivity | tauto].
Qed.

Lemma extract_text_errors_witness :
  (HTTPException 500 docx_failed = HTTPException 400 unsupported_format
   /\ ~ supported "letter.docx")
  \/ (HTTPException 500 docx_failed = HTTPException 500 pdf_failed
      /\ ends_with_ignoring_case "letter.docx" ".pdf"
      /\ exists text,
           PdfReader (Script.failing "File is not a zip file") [] = Raised text)
  \/ (HTTPException 500 docx_failed = HTTPException 500 docx_failed
      /\ ends_with_ignoring_case "letter.docx" ".docx"
      /\ exists text,
           Document (Script.failing "File is not a zip file") [] = Raised text).
Proof.
  apply (extract_text_errors (Script.failing "File is not a zip file")
           [] "letter.docx" [] (HTTPException 500 docx_failed)).
  reflexivity.
Defined.

(** X4.  A run of [extract_text_from_file] only adds events: at most
    one call to a parser, exactly one when the name is supported, and
    no call to the provider. *)
Theorem extract_text_calls (env : Env) (file_bytes : bytes)
    (file_name : string) (w : list event) :
  exists added,
    events (extract_text_from_file env file_bytes file_name w)
    = (w ++ added)%list
    /\ (parser_calls added <= 1)%nat
    /\ (parser_calls added = 1%nat <-> supported file_name)
    /\ provider_calls added = 0%nat.
Proof.
  unfold events, supported.
  destruct (extract_text_from_file_run env file_bytes file_name w)
    as [[P E]|[[D [NP E]]|[NP [ND E]]]]; rewrite E.
  - rewrite extract_text_from_pdf_run.
    destruct (PdfReader env file_bytes); eexists; (split; [reflexivity|]);
      cbn; intuition.
  - rewrite extract_text_from_docx_run.
    destruct (Document env file_bytes); eexists; (split; [reflexivity|]);
      cbn; intuition.
  - eexists. split; [reflexivity|]. cbn. intuition; discriminate.
Qed.

(** ** The LLM services *)

(** X5.  Without an API key no request leaves the process:
    [call_gpt_api], and with it [extract_job_criteria] and
    [score_resume], raise the client's error and add no event, neither
    a call to the provider nor a log record. *)
Theorem no_key_no_request (env : Env) (system_message user_message : string)
    (fmt : response_format) (job_description resume_content : string)
    (criteria : list string) (w : list event) :
  OPENAI_API_KEY env = None ->
  call_gpt_api env system_message user_message fmt w = (inl OpenAIError, w)
  /\ extract_job_criteria env job_description w = (inl OpenAIError, w)
  /\ score_resume env criteria resume_content w = (inl OpenAIError, w).
Proof.
  intros K. repeat split.
  - now rewrite call_gpt_api_run, K.
  - unfold extract_job_criteria, bind. now rewrite call_gpt_api_run, K.
  - unfold score_resume. now rewrite call_gpt_api_run, K.
Qed.

Lemma no_key_no_request_witness :
  call_gpt_api
    (Script.env Script.page Script.page None (Raised "unused") [])
    "system" "user" CriteriaFormat [Logged INFO "started"]
  = (inl OpenAIError, [Logged INFO "started"])
  /\ extract_job_criteria
       (Script.env Script.page Script.page None (Raised "unused") [])
       "Senior engineer" [Logged INFO "started"]
     = (inl OpenAIError, [Logged INFO "started"])
  /\ score_resume
       (Script.env Script.page Script.page None (Raised "unused") [])
       ["Python"] "Curriculum vitae" [Logged INFO "started"]
     = (inl OpenAIError, [Logged INFO "started"]).
Proof.
  apply (no_key_no_request
           (Script.env Script.page Script.page None (Raised "unused") [])
           "system" "user" CriteriaFormat "Senior engineer" "Curriculum vitae"
           ["Python"] [Logged INFO "started"]).
  reflexivity.
Defined.

(** X6.  [extract_job_criteria] never returns an empty list of
    criteria, and it raises nothing but the client's error, the 500
    error of a failed call, the 400 error of an empty list and the
    [AttributeError] of a reply without a parsed value.  It sends at
    most one request, and logs one record exactly when it raises an
    [HTTPException]. *)
Theorem extract_job_criteria_outcomes (env : Env) (job_description : string)
    (w : list event) :
  match result (extract_job_criteria env job_description w) with
  | inr response =>
      criteria response <> []
      /\ events (extract_job_criteria env job_description w)
         = (w ++ [ParseCalled MODEL
                    (messages criteria_system_message job_description)
                    CriteriaFormat])%list
  | inl OpenAIError =>
      events (extract_job_criteria env job_description w) = w
  | inl (AttributeError name) =>
      name = "criteria"
      /\ events (extract_job_criteria env job_description w)
         = (w ++ [ParseCalled MODEL
                    (messages criteria_system_message job_description)
                    CriteriaFormat])%list
  | inl (HTTPException status detail) =>
      ((status = 500 /\ detail = llm_failed)
       \/ (status = 400 /\ detail = invalid_job_description))
      /\ exists msg,
           events (extract_job_criteria env job_description w)
           = (w ++ [ParseCalled MODEL
                      (messages criteria_system_message job_description)
                      CriteriaFormat;
                    Logged ERROR msg])%list
  | inl (ValueError _) => False
  end.
Proof.
  unfold extract_job_criteria, bind, result, events.
  rewrite call_gpt_api_run.
  destruct (OPENAI_API_KEY env); [|reflexivity]. cbv zeta.
  destruct (parse env w MODEL _ CriteriaFormat) as [e|[[cs]|]];
    cbn [fst snd criteria].
  - split; [now left|]. eexists. now rewrite <- app_assoc.
  - destruct cs as [|c cs]; cbn [List.length Nat.eqb].
    + unfold logging_error, emit, raise. cbn [fst snd].
      split; [now right|]. eexists. now rewrite <- app_assoc.
    + unfold ret. cbn [fst snd criteria]. split; [discriminate | reflexivity].
  - unfold raise. cbn [fst snd]. split; reflexivity.
Qed.

Lemma occurs_in_refl (x : string) : occurs_in x x.
Proof. exists EmptyString, EmptyString. simpl. now rewrite append_nil_r. Qed.

Lemma occurs_in_trans (x y z : string) :
  occurs_in x y -> occurs_in y z -> occurs_in x z.
Proof.
  intros [b1 [a1 ->]] [b2 [a2 ->]].
  exists (b2 ++ b1), (a1 ++ a2). now rewrite !append_assoc.
Qed.

Lemma occurs_in_append_r (a x : string) : occurs_in x (a ++ x).
Proof. exists a, EmptyString. now rewrite append_nil_r. Qed.

Lemma occurs_in_concat (sep x : string) (l : list string) :
  In x l -> occurs_in x (String.concat sep l).
Proof.
  induction l as [|a l IH]; [intros []|].
  intros [->|H].
  - destruct l as [|b l]; [apply occurs_in_refl|].
    exists EmptyString, (sep ++ String.concat sep (b :: l)). reflexivity.
  - destruct l as [|b l]; [destruct H|].
    destruct (IH H) as [before [after E]].
    change (String.concat sep (a :: b :: l))
      with (a ++ sep ++ String.concat sep (b :: l)).
    rewrite E. exists (a ++ sep ++ before), after.
    now rewrite !append_assoc.
Qed.

(** X7.  With a client at hand, [score_resume] sends one request: to
    the pinned model, for a [ResumeScore], with a system message
    followed by a user message.  Every criterion occurs in the text of
    the system message, and the user message is the resume text after
    [Resume: ]. *)
Theorem score_resume_request (env : Env) (criteria : list string)
    (resume_content key : string) (w : list event) :
  OPENAI_API_KEY env = Some key ->
  exists system_message logged,
    events (score_resume env criteria resume_content w)
    = (w ++ ParseCalled MODEL
              (messages system_message ("Resume: " ++ resume_content))
              ResumeScoreFormat
         :: logged)%list
    /\ provider_calls logged = 0%nat
    /\ (forall c, In c criteria -> occurs_in c system_message)
    /\ map (Dict.get "role")
           (messages system_message ("Resume: " ++ resume_content))
       = [Some "system"; Some "user"]
    /\ map (Dict.get "content")
           (messages system_message ("Resume: " ++ resume_content))
       = [Some system_message; Some ("Resume: " ++ resume_content)].
Proof.
  intros K. unfold score_resume, events. rewrite call_gpt_api_run, K.
  cbv zeta. exists (scoring_system_message (Str.join nl criteria)).
  assert (forall c, In c criteria ->
            occurs_in c (scoring_system_message (Str.join nl criteria))) as O.
  { intros c Hc.
    apply (occurs_in_trans _ ("        " ++ Str.join nl criteria)).
    - apply (occurs_in_trans _ (Str.join nl criteria)).
      + now apply occurs_in_concat.
      + apply occurs_in_append_r.
    - unfold scoring_system_message, Str.join at 1.
      apply occurs_in_concat.
      repeat (first [left; reflexivity | right]). }
  destruct (parse env w MODEL _ ResumeScoreFormat) as [e|parsed].
  - eexists. cbn [snd]. rewrite <- app_assoc. cbn [app].
    split; [reflexivity|]. split; [reflexivity|]. split; [exact O|].
    split; reflexivity.
  - exists []. cbn [snd].
    split; [reflexivity|]. split; [reflexivity|]. split; [exact O|].
    split; reflexivity.
Qed.

Lemma score_resume_request_witness :
  exists system_message logged,
    events
      (score_resume
         (Script.env Script.page Script.page Script.key (Raised "unused")
            [Returned (Some Script.ann)])
         ["X"; "Y"] "Ann, engineer" [])
    = ([] ++ ParseCalled MODEL
               (messages system_message ("Resume: " ++ "Ann, engineer"))
               ResumeScoreFormat
          :: logged)%list
    /\ provider_calls logged = 0%nat
    /\ (forall c, In c ["X"; "Y"] -> occurs_in c system_message)
    /\ map (Dict.get "role")
           (messages system_message ("Resume: " ++ "Ann, engineer"))
       = [Some "system"; Some "user"]
    /\ map (Dict.get "content")
           (messages system_message ("Resume: " ++ "Ann, engineer"))
       = [Some system_message; Some ("Resume: " ++ "Ann, engineer")].
Proof.
  apply (score_resume_request
           (Script.env Script.page Script.page Script.key (Raised "unused")
              [Returned (Some Script.ann)])
           ["X"; "Y"] "Ann, engineer" "sk-test" []).
  reflexivity.
Defined.

(** ** The endpoints *)

Lemma provider_calls_app (w w' : list event) :
  provider_calls (w ++ w') = (provider_calls w + provider_calls w')%nat.
Proof. unfold provider_calls. now rewrite filter_app, length_app. Qed.

Lemma parser_calls_app (w w' : list event) :
  parser_calls (w ++ w') = (parser_calls w + parser_calls w')%nat.
Proof. unfold parser_calls. now rewrite filter_app, length_app. Qed.

(** The provider calls and parser calls a run of the extractor
    adds. *)
Lemma extract_text_from_file_counts (env : Env) (file_bytes : bytes)
    (file_name : string) (w : list event) :
  provider_calls (events (extract_text_from_file env file_bytes file_name w))
  = provider_calls w
  /\ (forall text w',
        extract_text_from_file env file_bytes file_name w = (inr text, w') ->
        parser_calls w' = S (parser_calls w)).
Proof.
  unfold events.
  destruct (extract_text_from_file_run env file_bytes file_name w)
    as [[P E]|[[D [NP E]]|[NP [ND E]]]]; rewrite E.
  - rewrite extract_text_from_pdf_run.
    destruct (PdfReader env file_bytes); cbn [snd];
      rewrite provider_calls_app; cbn; (split; [lia|]).
    + discriminate.
    + intros text w' H. injection H as _ <-.
      rewrite parser_calls_app. cbn. lia.
  - rewrite extract_text_from_docx_run.
    destruct (Document env file_bytes); cbn [snd];
      rewrite provider_calls_app; cbn; (split; [lia|]).
    + discriminate.
    + intros text w' H. injection H as _ <-.
      rewrite parser_calls_app. cbn. lia.
  - cbn [snd]. rewrite provider_calls_app. cbn. split; [lia | discriminate].
Qed.

Lemma extract_criteria_run (env : Env) (job_description_file : UploadFile)
    (w : list event) :
  extract_criteria env job_description_file w
  = match extract_text_from_file env (read job_description_file)
            (filename job_description_file)
            (w ++ [Logged INFO ("Processing job description from file: "
                                ++ filename job_description_file)])%list with
    | (inl e, w1) => (inl e, w1)
    | (inr text, w1) =>
        match extract_job_criteria env text w1 with
        | (inl e, w2) => (inl e, w2)
        | (inr response, w2) =>
            (inr response,
             (w2 ++ [Logged INFO "Successfully extracted job criteria"])%list)
        end
    end.
Proof.
  unfold extract_criteria.
  unfold bind at 1. unfold logging_info at 1, emit at 1.
  unfold bind at 1.
  destruct (extract_text_from_file env _ _ _) as [[e|text] w1];
    [reflexivity|].
  unfold bind at 1.
  destruct (extract_job_criteria env text w1) as [[e|response] w2];
    reflexivity.
Qed.

(** X8.  [extract_criteria] composes the two stages: when the text of
    the uploaded file is extracted and the provider, asked with that
    text as user message, returns a list of one or more criteria, the
    endpoint returns that list; after the extraction the run adds the
    one request and the closing log record. *)
Theorem extract_criteria_returns_criteria (env : Env)
    (job_description_file : UploadFile) (key text : string)
    (response : Criteria) (w w1 : list event) :
  OPENAI_API_KEY env = Some key ->
  extract_text_from_file env (read job_description_file)
    (filename job_description_file)
    (w ++ [Logged INFO ("Processing job description from file: "
                        ++ filename job_description_file)])%list
  = (inr text, w1) ->
  parse env w1 MODEL (messages criteria_system_message text) CriteriaFormat
  = Returned (Some response) ->
  criteria response <> [] ->
  extract_criteria env job_description_file w
  = (inr response,
     (w1 ++ [ParseCalled MODEL (messages criteria_system_message text)
               CriteriaFormat;
             Logged INFO "Successfully extracted job criteria"])%list).
Proof.
  intros K T P N. rewrite extract_criteria_run, T.
  unfold extract_job_criteria, bind.
  rewrite call_gpt_api_run, K, P. cbv zeta.
  destruct response as [cs]. cbn [criteria] in *.
  destruct cs as [|c cs]; [contradiction|].
  cbn [List.length Nat.eqb]. unfold ret. now rewrite <- app_assoc.
Qed.

Lemma extract_criteria_returns_criteria_witness :
  extract_criteria
    (Script.env (Returned ["Senior engineer"; "Must have Python"])
       Script.page Script.key
       (Returned (Some {| criteria := ["Must have Python"] |})) [])
    (Script.pdf "job.pdf") []
  = (inr {| criteria := ["Must have Python"] |},
     ([Logged INFO "Processing job description from file: job.pdf";
       PdfReaderCalled []]
      ++ [ParseCalled MODEL
            (messages criteria_system_message
               ("Senior engineer" ++ nl ++ "Must have Python"))
            CriteriaFormat;
          Logged INFO "Successfully extracted job criteria"])%list).
Proof.
  apply (extract_criteria_returns_criteria
           (Script.env (Returned ["Senior engineer"; "Must have Python"])
              Script.page Script.key
              (Returned (Some {| criteria := ["Must have Python"] |})) [])
           (Script.pdf "job.pdf") "sk-test"
           ("Senior engineer" ++ nl ++ "Must have Python")
           {| criteria := ["Must have Python"] |} []).
  - reflexivity.
  - reflexivity.
  - reflexivity.
  - discriminate.
Defined.

(** X9.  When the text of the uploaded file cannot be extracted,
    [extract_criteria] raises the extractor's error as it is and the
    provider is not called. *)
Theorem extraction_failure_skips_provider (env : Env)
    (job_description_file : UploadFile) (w : list event) (e : exn) :
  result
    (extract_text_from_file env (read job_description_file)
       (filename job_description_file)
       (w ++ [Logged INFO ("Processing job description from file: "
                           ++ filename job_description_file)])%list)
  = inl e ->
  result (extract_criteria env job_description_file w) = inl e
  /\ provider_calls (events (extract_criteria env job_description_file w))
     = provider_calls w.
Proof.
  intros T. rewrite extract_criteria_run. unfold result, events in *.
  pose proof (proj1 (extract_text_from_file_counts env
                       (read job_description_file)
                       (filename job_description_file)
                       (w ++ [Logged INFO
                                ("Processing job description from file: "
                                 ++ filename job_description_file)])%list))
    as C.
  unfold events in C.
  destruct (extract_text_from_file env _ _ _) as [[e'|text] w1];
    cbn [fst snd] in *; [|discriminate].
  injection T as ->. split; [reflexivity|].
  rewrite C, provider_calls_app. cbn. lia.
Qed.

Lemma extraction_failure_skips_provider_witness :
  result
    (extract_criteria (Script.failing "EOF marker not found")
       (Script.pdf "job.pdf") [])
  = inl (HTTPException 500 pdf_failed)
  /\ provider_calls
       (events
          (extract_criteria (Script.failing "EOF marker not found")
             (Script.pdf "job.pdf") []))
     = provider_calls [].
Proof.
  apply (extraction_failure_skips_provider
           (Script.failing "EOF marker not found") (Script.pdf "job.pdf") []
           (HTTPException 500 pdf_failed)).
  reflexivity.
Defined.

(** ** The record of a resume *)

Lemma NoDup_snoc {A} (l : list A) (x : A) :
  NoDup l -> ~ In x l -> NoDup (l ++ [x]).
Proof.
  induction l as [|a l IH]; simpl; intros N H.
  - constructor; [intros [] | constructor].
  - inversion N as [|? ? Ha Hl]; subst. constructor.
    + rewrite in_app_iff. simpl. intuition.
    + apply IH; intuition.
Qed.

Lemma set_fresh {V} (k : string) (v : V) (d : Dict.t V) :
  ~ In k (Dict.keys d) -> Dict.set k v d = (d ++ [(k, v)])%list.
Proof.
  unfold Dict.keys. induction d as [|[k' v'] d IH]; simpl; [reflexivity|].
  intros N. destruct (String.eqb k' k) eqn:E.
  - apply String.eqb_eq in E. tauto.
  - rewrite IH by tauto. reflexivity.
Qed.

(** Assigning fresh, distinct keys appends the pairs in order. *)
Lemma update_fresh {V} (kvs : list (string * V)) :
  forall d : Dict.t V,
    NoDup (map fst kvs) ->
    (forall k, In k (map fst kvs) -> ~ In k (Dict.keys d)) ->
    Dict.update d kvs = (d ++ kvs)%list.
Proof.
  induction kvs as [|[k v] kvs IH]; intros d N F.
  - simpl. now rewrite app_nil_r.
  - change (Dict.update d ((k, v) :: kvs))
      with (Dict.update (Dict.set k v d) kvs).
    simpl in N. inversion N as [|? ? Hk Hn]; subst.
    rewrite set_fresh by (apply F; now left).
    rewrite IH; [now rewrite <- app_assoc | assumption |].
    intros k' Hk'. unfold Dict.keys. rewrite map_app, in_app_iff. simpl.
    intros [H|[H|[]]].
    + apply (F k'); [now right | exact H].
    + subst k'. contradiction.
Qed.

Lemma keys_update_prefix {V} (kvs : list (string * V)) :
  forall d : Dict.t V,
    exists extra, Dict.keys (Dict.update d kvs) = (Dict.keys d ++ extra)%list.
Proof.
  induction kvs as [|[k v] kvs IH]; intros d.
  - exists []. simpl. now rewrite app_nil_r.
  - change (Dict.update d ((k, v) :: kvs))
      with (Dict.update (Dict.set k v d) kvs).
    destruct (IH (Dict.set k v d)) as [extra E]. rewrite E, keys_set.
    destruct (Str.mem k (Dict.keys d)).
    + now exists extra.
    + exists (k :: extra). now rewrite <- app_assoc.
Qed.

(** With criteria that are pairwise distinct and not reserved, the
    record lists the entries as they were returned. *)
Lemma record_fresh (rs : ResumeScore) :
  NoDup (map criterion (criterion_scores rs)) ->
  ~ In "Candidate Name" (map criterion (criterion_scores rs)) ->
  ~ In "Total Score" (map criterion (criterion_scores rs)) ->
  record rs
  = (("Candidate Name", VStr (candidate_name rs))
     :: map (fun x => (criterion x, VInt (score x))) (criterion_scores rs)
     ++ [("Total Score", VInt (sum (map score (criterion_scores rs))))])%list.
Proof.
  intros N NC NT.
  assert (scores_by_criterion rs
          = map (fun x => (criterion x, score x)) (criterion_scores rs)) as S.
  { unfold scores_by_criterion. rewrite update_fresh.
    - reflexivity.
    - now rewrite map_map.
    - intros k _ []. }
  unfold record, total_score, Dict.items, Dict.values.
  rewrite S, !map_map. cbn [fst snd].
  rewrite update_fresh; [reflexivity| |intros k _ []].
  cbn [map app]. rewrite map_app, map_map. cbn [map fst].
  constructor.
  - rewrite in_app_iff. intros [H|[H|[]]]; [contradiction | discriminate H].
  - now apply NoDup_snoc.
Qed.

(** X10.  When the criteria returned for a resume are pairwise distinct
    and none of them is [Candidate Name] or [Total Score], the columns
    of its record are [Candidate Name], the criteria in the order
    returned, [Total Score]; the cells under them are the candidate's
    name, the scores in the order returned, and the plain sum of the
    returned scores. *)
Theorem record_columns_in_order (rs : ResumeScore) :
  NoDup (map criterion (criterion_scores rs)) ->
  ~ In "Candidate Name" (map criterion (criterion_scores rs)) ->
  ~ In "Total Score" (map criterion (criterion_scores rs)) ->
  Dict.keys (record rs)
  = ("Candidate Name" :: map criterion (criterion_scores rs)
     ++ ["Total Score"])%list
  /\ cells (Dict.keys (record rs)) (record rs)
     = (VStr (candidate_name rs)
        :: map (fun x => VInt (score x)) (criterion_scores rs)
        ++ [VInt (sum (map score (criterion_scores rs)))])%list.
Proof.
  intros N NC NT. split.
  - rewrite (record_fresh rs N NC NT). unfold Dict.keys.
    cbn [map fst]. now rewrite map_app, map_map.
  - unfold cells. rewrite <- values_by_keys by apply record_NoDup.
    rewrite (record_fresh rs N NC NT). unfold Dict.values.
    cbn [map snd]. now rewrite map_app, map_map.
Qed.

Lemma record_columns_in_order_witness :
  Dict.keys (record Script.ann) = ["Candidate Name"; "X"; "Y"; "Total Score"]
  /\ cells (Dict.keys (record Script.ann)) (record Script.ann)
     = [VStr "Ann"; VInt 4; VInt 2; VInt 6].
Proof.
  apply (record_columns_in_order Script.ann).
  - repeat constructor; simpl; intuition discriminate.
  - simpl. intuition discriminate.
  - simpl. intuition discriminate.
Defined.

(** X11.  Whatever the provider returned, the first key of a record is
    [Candidate Name], [Total Score] is among the keys after it, and so
    is every returned criterion other than [Candidate Name]: a report
    has the candidate column first and at least two columns. *)
Theorem record_first_column (rs : ResumeScore) :
  exists others,
    Dict.keys (record rs) = "Candidate Name" :: others
    /\ In "Total Score" others
    /\ (forall c, In c (map criterion (criterion_scores rs)) ->
                  c = "Candidate Name" \/ In c others)
    /\ (2 <= List.length (Dict.keys (record rs)))%nat.
Proof.
  destruct (keys_update_prefix
              (map (fun kv => (fst kv, VInt (snd kv)))
                   (Dict.items (scores_by_criterion rs))
               ++ [("Total Score", VInt (total_score rs))])%list
              [("Candidate Name", VStr (candidate_name rs))])
    as [others E].
  change (Dict.keys (record rs) = "Candidate Name" :: others) in E.
  assert (forall k, k <> "Candidate Name" -> In k (Dict.keys (record rs)) ->
                    In k others) as O.
  { intros k N H. rewrite E in H. destruct H as [H|H]; [congruence | exact H]. }
  assert (In "Total Score" others) as T.
  { apply O; [discriminate|]. apply record_keys. right. now left. }
  exists others. repeat split.
  - exact E.
  - exact T.
  - intros c Hc. destruct (String.eqb_spec c "Candidate Name") as [->|N];
      [now left|].
    right. apply O; [exact N|]. apply record_keys. right. now right.
  - rewrite E. destruct others; [destruct T | simpl; lia].
Qed.

Lemma get_In_pair {V} (k : string) (v : V) (d : Dict.t V) :
  NoDup (Dict.keys d) -> In (k, v) d -> Dict.get k d = Some v.
Proof.
  unfold Dict.keys. induction d as [|[k' v'] d IH]; simpl; [intros _ []|].
  intros N H. inversion N as [|? ? Hk Hd]; subst.
  destruct H as [H|H].
  - injection H as -> ->. now rewrite String.eqb_refl.
  - destruct (String.eqb k' k) eqn:E; [|now apply IH].
    apply String.eqb_eq in E. subst k'. exfalso. apply Hk.
    now apply (in_map fst) in H.
Qed.

(** Every value of the score dictionary is the score of a returned
    entry. *)
Lemma values_are_scores (rs : ResumeScore) (v : Z) :
  In v (Dict.values (scores_by_criterion rs)) ->
  exists x, In x (criterion_scores rs) /\ score x = v.
Proof.
  unfold Dict.values. intros H. apply in_map_iff in H.
  destruct H as [[k v'] [E H]]. simpl in E. subst v'.
  apply get_In_pair in H; [|apply scores_by_criterion_NoDup].
  rewrite scores_by_criterion_get in H. unfold last_score in H.
  destruct (find _ (rev (criterion_scores rs))) as [x|] eqn:F;
    [|discriminate].
  injection H as <-. apply find_some in F. destruct F as [F _].
  exists x. split; [now apply in_rev | reflexivity].
Qed.

Lemma sum_bounds (lo hi : Z) (l : list Z) :
  (forall v, In v l -> lo <= v <= hi) ->
  lo * Z.of_nat (List.length l) <= sum l <= hi * Z.of_nat (List.length l).
Proof.
  induction l as [|v l IH]; intros H.
  - unfold sum. simpl. lia.
  - rewrite sum_cons. cbn [List.length]. rewrite Nat2Z.inj_succ.
    pose proof (H v (or_introl eq_refl)).
    assert (forall u, In u l -> lo <= u <= hi) as H'
      by (intros u Hu; apply H; now right).
    specialize (IH H'). nia.
Qed.

(** X12.  When every returned score lies between 0 and 5, the total of
    a resume lies between 0 and five times the number of distinct
    criteria returned, which is at most the number of entries
    returned. *)
Theorem total_score_bounds (rs : ResumeScore) :
  (forall x, In x (criterion_scores rs) -> 0 <= score x <= 5) ->
  0 <= total_score rs
    <= 5 * Z.of_nat (List.length (Dict.keys (scores_by_criterion rs)))
  /\ (List.length (Dict.keys (scores_by_criterion rs))
      <= List.length (criterion_scores rs))%nat.
Proof.
  intros H. split.
  - unfold total_score.
    pose proof (sum_bounds 0 5 (Dict.values (scores_by_criterion rs))) as B.
    unfold Dict.values, Dict.keys in *. rewrite !length_map in *.
    apply B. intros v Hv. fold (Dict.values (scores_by_criterion rs)) in Hv.
    apply values_are_scores in Hv. destruct Hv as [x [Hx <-]]. now apply H.
  - rewrite <- (length_map criterion (criterion_scores rs)).
    apply NoDup_incl_length; [apply scores_by_criterion_NoDup|].
    intros c Hc. now apply scores_by_criterion_keys.
Qed.

Lemma total_score_bounds_witness :
  0 <= total_score Script.cyd
    <= 5 * Z.of_nat (List.length (Dict.keys (scores_by_criterion Script.cyd)))
  /\ (List.length (Dict.keys (scores_by_criterion Script.cyd))
      <= List.length (criterion_scores Script.cyd))%nat.
Proof.
  apply (total_score_bounds Script.cyd).
  intros x [<-|[<-|[<-|[<-|[]]]]]; simpl; lia.
Defined.

(** ** The batch *)

(** One turn of the loop of [score_resumes]. *)
Lemma score_files_step (env : Env) (criteria : list string)
    (resume_file : UploadFile) (rest : list UploadFile)
    (acc : list (Dict.t value)) (w : list event) :
  score_files env criteria (resume_file :: rest) acc w
  = match extract_text_from_file env (read resume_file)
            (filename resume_file) w with
    | (inl e, w1) => (inl e, w1)
    | (inr resume_content, w1) =>
        match score_resume env criteria resume_content
                (w1 ++ [Logged INFO ("Scoring resume from file: "
                                     ++ filename resume_file)])%list with
        | (inl e, w2) => (inl e, w2)
        | (inr None, w2) => (inl (AttributeError "criterion_scores"), w2)
        | (inr (Some resume_score), w2) =>
            score_files env criteria rest
              (acc ++ [record resume_score])%list
              (w2 ++ [Logged INFO "Successfully scored the resume"])%list
        end
    end.
Proof.
  cbn [score_files]. unfold bind at 1.
  destruct (extract_text_from_file env _ _ w) as [[e|text] w1];
    [reflexivity|].
  unfold bind at 1. unfold logging_info at 1, emit at 1.
  unfold bind at 1.
  destruct (score_resume env criteria text _) as [[e|[rs|]] w2];
    reflexivity.
Qed.

Lemma score_files_unsupported (env : Env) (criteria : list string)
    (file_list : list UploadFile) (resume_file : UploadFile) :
  In resume_file file_list ->
  ~ supported (filename resume_file) ->
  forall acc w,
    exists e w', score_files env criteria file_list acc w = (inl e, w').
Proof.
  intros Hin U.
  induction file_list as [|f rest IH]; [destruct Hin|].
  intros acc w. rewrite score_files_step.
  destruct (extract_text_from_file env (read f) (filename f) w)
    as [[e|text] w1] eqn:T; [eauto|].
  destruct (score_resume env criteria text _) as [[e|[rs|]] w2];
    [eauto| |eauto].
  destruct Hin as [->|Hin]; [|now apply IH].
  exfalso. apply U.
  destruct (extract_text_from_file_run env (read resume_file)
              (filename resume_file) w)
    as [[P _]|[[D _]|[_ [_ E]]]].
  - now left.
  - now right.
  - rewrite E in T. discriminate T.
Qed.

(** X13.  One file of the batch with a name that ends neither in
    [.pdf] nor in [.docx] is enough for [score_resumes] to raise: no
    response, hence no partial report, is returned, wherever the file
    stands in the batch and whatever the other files are. *)
Theorem unsupported_file_aborts_batch (env : Env) (criteria : list string)
    (file_list : list UploadFile) (resume_file : UploadFile)
    (w : list event) :
  In resume_file file_list ->
  ~ supported (filename resume_file) ->
  exists e, result (score_resumes env criteria file_list w) = inl e.
Proof.
  intros Hin U. rewrite score_resumes_run.
  destruct (score_files_unsupported env criteria file_list resume_file
              Hin U [] w) as [e [w' E]].
  rewrite E. now exists e.
Qed.

Lemma unsupported_file_aborts_batch_witness :
  exists e,
    result
      (score_resumes (Script.steady ["Curriculum vitae"] Script.ann)
         ["X"; "Y"]
         [Script.pdf "ann.pdf"; Script.pdf "bob.txt"; Script.pdf "cyd.docx"]
         [])
    = inl e.
Proof.
  apply (unsupported_file_aborts_batch
           (Script.steady ["Curriculum vitae"] Script.ann) ["X"; "Y"]
           [Script.pdf "ann.pdf"; Script.pdf "bob.txt"; Script.pdf "cyd.docx"]
           (Script.pdf "bob.txt") []).
  - right. now left.
  - intros [H|H]; apply endswith_lower in H; vm_compute in H; discriminate H.
Defined.

Lemma score_files_counts (env : Env) (criteria : list string)
    (file_list : list UploadFile) :
  forall acc w resume_scores w',
    score_files env criteria file_list acc w = (inr resume_scores, w') ->
    provider_calls w' = (provider_calls w + List.length file_list)%nat
    /\ parser_calls w' = (parser_calls w + List.length file_list)%nat
    /\ List.length resume_scores
       = (List.length acc + List.length file_list)%nat.
Proof.
  induction file_list as [|f rest IH]; intros acc w rows w'.
  - intros E. injection E as <- <-. simpl. lia.
  - rewrite score_files_step.
    destruct (extract_text_from_file_counts env (read f) (filename f) w)
      as [Cp Cs]. unfold events in Cp.
    destruct (extract_text_from_file env (read f) (filename f) w)
      as [[e|text] w1]; [discriminate|].
    cbn [snd] in Cp. specialize (Cs text w1 eq_refl).
    unfold score_resume. rewrite call_gpt_api_run.
    destruct (OPENAI_API_KEY env); [|discriminate]. cbv zeta.
    destruct (parse env _ MODEL _ ResumeScoreFormat) as [e|[rs|]];
      [discriminate| |discriminate].
    intros E. apply IH in E. destruct E as [E1 [E2 E3]].
    rewrite !provider_calls_app in E1. rewrite !parser_calls_app in E2.
    rewrite length_app in E3. cbn in E1, E2, E3.
    cbn [List.length]. lia.
Qed.

(** X14.  When [score_resumes] returns a response, it has called a
    parser once and the provider once for each file of the batch, no
    more and no less. *)
Theorem one_call_per_resume (env : Env) (criteria : list string)
    (file_list : list UploadFile) (w w' : list event) (response : Response) :
  score_resumes env criteria file_list w = (inr response, w') ->
  provider_calls w' = (provider_calls w + List.length file_list)%nat
  /\ parser_calls w' = (parser_calls w + List.length file_list)%nat.
Proof.
  rewrite score_resumes_run.
  destruct (score_files env criteria file_list [] w) as [[e|rows] w1] eqn:S;
    [discriminate|].
  destruct (csv_content rows); [discriminate|].
  intros E. injection E as _ <-.
  apply score_files_counts in S. tauto.
Qed.

Lemma one_call_per_resume_witness :
  provider_calls
    (events
       (score_resumes (Script.steady ["Curriculum vitae"] Script.ann)
          ["X"; "Y"] [Script.pdf "ann.pdf"; Script.pdf "ann.docx"] []))
  = (provider_calls [] + List.length [Script.pdf "ann.pdf"; Script.pdf "ann.docx"])%nat
  /\ parser_calls
       (events
          (score_resumes (Script.steady ["Curriculum vitae"] Script.ann)
             ["X"; "Y"] [Script.pdf "ann.pdf"; Script.pdf "ann.docx"] []))
     = (parser_calls [] + List.length [Script.pdf "ann.pdf"; Script.pdf "ann.docx"])%nat.
Proof.
  apply (one_call_per_resume
           (Script.steady ["Curriculum vitae"] Script.ann) ["X"; "Y"]
           [Script.pdf "ann.pdf"; Script.pdf "ann.docx"] []
           (events
              (score_resumes (Script.steady ["Curriculum vitae"] Script.ann)
                 ["X"; "Y"] [Script.pdf "ann.pdf"; Script.pdf "ann.docx"] []))
           {| content :=
                "Candidate Name,X,Y,Total Score" ++ cr ++ nl
                ++ "Ann,4,2,6" ++ cr ++ nl ++ "Ann,4,2,6" ++ cr ++ nl;
              media_type := "text/csv";
              headers := [("Content-Disposition",
                           "attachment; filename=resume-scoring.csv")];
              status_code := 200 |}).
  vm_compute. reflexivity.
Defined.

(** With scores within the rubric the total is at most five times
    the number of entries returned. *)
Lemma total_score_at_most (rs : ResumeScore) :
  Forall (fun x => 0 <= score x <= 5) (criterion_scores rs) ->
  0 <= total_score rs <= 5 * Z.of_nat (List.length (criterion_scores rs)).
Proof.
  intros H. rewrite Forall_forall in H.
  pose proof (sum_bounds 0 5 (Dict.values (scores_by_criterion rs))) as B.
  assert (List.length (Dict.values (scores_by_criterion rs))
          <= List.length (criterion_scores rs))%nat as L.
  { unfold Dict.values. rewrite length_map.
    rewrite <- (length_map fst (scores_by_criterion rs)).
    rewrite <- (length_map criterion (criterion_scores rs)).
    apply NoDup_incl_length; [apply scores_by_criterion_NoDup|].
    intros c Hc. now apply scores_by_criterion_keys. }
  unfold total_score.
  assert (forall v, In v (Dict.values (scores_by_criterion rs)) ->
                    0 <= v <= 5) as V.
  { intros v Hv. apply values_are_scores in Hv.
    destruct Hv as [x [Hx <-]]. now apply H. }
  specialize (B V). lia.
Qed.

Lemma score_files_steady (env : Env) (criteria returned : list string)
    (key : string) (file_list : list UploadFile) :
  OPENAI_API_KEY env = Some key ->
  (forall w s u, exists rs,
      parse env w MODEL (messages s u) ResumeScoreFormat = Returned (Some rs)
      /\ within_rubric returned rs) ->
  Forall (readable env) file_list ->
  forall acc w,
    exists replies w',
      score_files env criteria file_list acc w
      = (inr (acc ++ map record replies)%list, w')
      /\ List.length replies = List.length file_list
      /\ Forall (within_rubric returned) replies.
Proof.
  intros K Hr Hf.
  induction Hf as [|f rest Rf _ IH]; intros acc w.
  - exists [], w. simpl. rewrite app_nil_r. repeat split. constructor.
  - rewrite score_files_step.
    assert (exists text w1,
              extract_text_from_file env (read f) (filename f) w
              = (inr text, w1)) as [text [w1 T]].
    { destruct Rf as [[P [pages R]]|[D [paragraphs R]]].
      - destruct (extract_text_from_file_run env (read f) (filename f) w)
          as [[_ E]|[[_ [NP _]]|[NP _]]]; try contradiction.
        rewrite E, extract_text_from_pdf_run, R. eauto.
      - pose proof (docx_excludes_pdf _ D) as NP.
        destruct (extract_text_from_file_run env (read f) (filename f) w)
          as [[P _]|[[_ [_ E]]|[_ [ND _]]]]; try contradiction.
        rewrite E, extract_text_from_docx_run, R. eauto. }
    rewrite T. unfold score_resume. rewrite call_gpt_api_run, K. cbv zeta.
    match goal with
    | |- context [parse env ?h MODEL (messages ?s ?u) ResumeScoreFormat] =>
        destruct (Hr h s u) as [rs [-> C]]
    end.
    match goal with
    | |- context [score_files env criteria rest ?a ?h] =>
        destruct (IH a h) as [replies [w' [E [L F]]]]
    end.
    exists (rs :: replies), w'. rewrite E, <- app_assoc. repeat split.
    + simpl. now rewrite L.
    + now constructor.
Qed.

Lemma csv_content_same_criteria (returned : list string)
    (first : ResumeScore) (rest : list ResumeScore) :
  Forall (fun rs => map criterion (criterion_scores rs) = returned)
         (first :: rest) ->
  csv_content (map record (first :: rest))
  = inr (report_text (Dict.keys (record first)) (map record (first :: rest))).
Proof.
  intros F. pose proof (Forall_inv F) as C1.
  pose proof (Forall_inv_tail F) as Fr. cbv beta in C1.
  cbn [map]. rewrite csv_content_run, find_all_false; [reflexivity|].
  intros r Hr. apply in_map_iff in Hr. destruct Hr as [rs [<- Hrs]].
  rewrite Forall_forall in Fr. specialize (Fr rs Hrs).
  replace (wrong_fields (Dict.keys (record first)) (record rs))
    with (@nil string); [reflexivity|].
  symmetry. apply wrong_fields_nil. intros k Hk.
  apply record_keys in Hk. apply record_keys.
  rewrite Fr in Hk. now rewrite C1.
Qed.

(** X15.  Take a client at hand, a non-empty batch in which every file
    has a supported name and is read by its parser, and a provider that
    answers every scoring request with scores between 0 and 5 for one
    list of criteria, whatever criteria were asked, short enough for
    every total to be written in at most 4300 digits.  Then
    [score_resumes] returns a response of status 200 and type
    [text/csv]: the report whose columns are the keys of the first
    record, with one line per file, each total between 0 and five times
    the number of criteria returned. *)
Theorem steady_provider_gives_report (env : Env)
    (criteria returned : list string) (key : string)
    (file_list : list UploadFile) (w : list event) :
  OPENAI_API_KEY env = Some key ->
  Forall (readable env) file_list ->
  (forall w s u, exists rs,
      parse env w MODEL (messages s u) ResumeScoreFormat = Returned (Some rs)
      /\ within_rubric returned rs) ->
  5 * Z.of_nat (List.length returned) < 10 ^ 4300 ->
  file_list <> [] ->
  exists response first rest,
    result (score_resumes env criteria file_list w) = inr response
    /\ List.length (first :: rest) = List.length file_list
    /\ Forall (fun rs => within_rubric returned rs
                         /\ 0 <= total_score rs < 10 ^ 4300)
              (first :: rest)
    /\ content response
       = report_text (Dict.keys (record first)) (map record (first :: rest))
    /\ status_code response = 200
    /\ media_type response = "text/csv".
Proof.
  intros K Hf Hr B N.
  destruct (score_files_steady env criteria returned key file_list K Hr Hf
              [] w) as [replies [w' [E [L F]]]].
  destruct replies as [|first rest].
  { destruct file_list; [contradiction | discriminate L]. }
  rewrite score_resumes_run, E. cbn [app].
  assert (Forall (fun rs => map criterion (criterion_scores rs) = returned)
                 (first :: rest)) as F'.
  { apply Forall_forall. intros rs Hrs. rewrite Forall_forall in F.
    now destruct (F rs Hrs). }
  rewrite (csv_content_same_criteria returned first rest F').
  eexists _, first, rest. unfold result.
  cbn [fst content status_code media_type].
  repeat split; try assumption; try reflexivity.
  apply Forall_forall. intros rs Hrs. rewrite Forall_forall in F.
  destruct (F rs Hrs) as [C S]. split; [now split|].
  pose proof (total_score_at_most rs S) as T.
  rewrite <- (length_map criterion), C in T. lia.
Qed.

Lemma steady_provider_gives_report_witness :
  exists response first rest,
    result
      (score_resumes (Script.steady ["Curriculum vitae"] Script.ann)
         ["X"; "Y"; "Z"] [Script.pdf "ann.pdf"; Script.pdf "ann.DOCX"] [])
    = inr response
    /\ List.length (first :: rest)
       = List.length [Script.pdf "ann.pdf"; Script.pdf "ann.DOCX"]
    /\ Forall (fun rs => within_rubric ["X"; "Y"] rs
                         /\ 0 <= total_score rs < 10 ^ 4300)
              (first :: rest)
    /\ content response
       = report_text (Dict.keys (record first)) (map record (first :: rest))
    /\ status_code response = 200
    /\ media_type response = "text/csv".
Proof.
  apply (steady_provider_gives_report
           (Script.steady ["Curriculum vitae"] Script.ann) ["X"; "Y"; "Z"]
           ["X"; "Y"] "sk-test"
           [Script.pdf "ann.pdf"; Script.pdf "ann.DOCX"] []).
  - reflexivity.
  - constructor; [|constructor; [|constructor]].
    + left. split; [apply endswith_lower; reflexivity|].
      now exists ["Curriculum vitae"].
    + right. split; [apply endswith_lower; reflexivity|].
      now exists ["Curriculum vitae"].
  - intros w s u. exists Script.ann. split; [reflexivity|].
    split; [reflexivity|].
    repeat constructor; simpl; lia.
  - vm_compute. reflexivity.
  - discriminate.
Defined.

(** ** The lines of the report *)

Lemma append_inj_r (a b c : string) : a ++ c = b ++ c -> a = b.
Proof.
  revert b. induction a as [|x a IH]; intros [|y b] E; simpl in E.
  - reflexivity.
  - exfalso. apply (f_equal String.length) in E.
    simpl in E. rewrite length_append in E. lia.
  - exfalso. apply (f_equal String.length) in E.
    simpl in E. rewrite length_append in E. lia.
  - injection E as -> E. f_equal. now apply IH.
Qed.

Lemma double_quotes_inj (a b : string) :
  Csv.double_quotes a = Csv.double_quotes b -> a = b.
Proof.
  revert b. induction a as [|x a IH]; intros [|y b]; simpl.
  - reflexivity.
  - destruct (Ascii.eqb y Csv.quotechar); discriminate.
  - destruct (Ascii.eqb x Csv.quotechar); discriminate.
  - destruct (Ascii.eqb x Csv.quotechar) eqn:Ex;
      destruct (Ascii.eqb y Csv.quotechar) eqn:Ey; intros E.
    + injection E as -> E. f_equal. now apply IH.
    + injection E as -> E. congruence.
    + injection E as -> E. congruence.
    + injection E as -> E. f_equal. now apply IH.
Qed.

(** X16.  No two cell texts are written alike: the text the writer
    puts out for a field, quoted or not, determines the field. *)
Theorem join_append_injective (a b : string) :
  Csv.join_append a = Csv.join_append b -> a = b.
Proof.
  assert (forall f g, Csv.needs_quotes g = false ->
            String Csv.quotechar f <> g) as Q.
  { intros f g G E. subst g. unfold Csv.needs_quotes in G.
    cbn [Str.contains] in G. rewrite Ascii.eqb_refl in G.
    cbn [orb] in G. rewrite orb_true_r in G. discriminate G. }
  unfold Csv.join_append.
  destruct (Csv.needs_quotes a) eqn:Na; destruct (Csv.needs_quotes b) eqn:Nb;
    intros E.
  - injection E as E. apply append_inj_r in E. now apply double_quotes_inj.
  - exfalso. exact (Q _ _ Nb E).
  - exfalso. symmetry in E. exact (Q _ _ Na E).
  - exact E.
Qed.

Lemma join_append_injective_witness :
  "Doe, Jane" = "Doe, Jane".
Proof.
  apply (join_append_injective "Doe, Jane" "Doe, Jane"). reflexivity.
Defined.

(** X17.  A header of two or more names, none of which holds a comma,
    a quote, a carriage return or a line feed, is written as the names
    separated by commas and ended by a carriage return and a line
    feed. *)
Theorem plain_header_line (fieldnames : list string) :
  Forall (fun name => Csv.needs_quotes name = false) fieldnames ->
  (2 <= List.length fieldnames)%nat ->
  Csv.writeheader fieldnames EmptyString
  = String.concat "," fieldnames ++ cr ++ nl.
Proof.
  intros P L. unfold Csv.writeheader, Csv.writerow.
  assert (map Csv.field_text (map VStr fieldnames) = fieldnames) as ->.
  { rewrite map_map. apply map_id. }
  assert (map Csv.join_append fieldnames = fieldnames) as J.
  { rewrite <- (map_id fieldnames) at 2. apply map_ext_in.
    intros name Hn. rewrite Forall_forall in P.
    unfold Csv.join_append. now rewrite (P name Hn). }
  destruct fieldnames as [|a [|b l]]; [simpl in L; lia | simpl in L; lia |].
  destruct a; rewrite J; reflexivity.
Qed.

Lemma plain_header_line_witness :
  Csv.writeheader ["Candidate Name"; "Must have Python"; "Total Score"]
    EmptyString
  = String.concat ","
      ["Candidate Name"; "Must have Python"; "Total Score"]
    ++ cr ++ nl.
Proof.
  apply (plain_header_line
           ["Candidate Name"; "Must have Python"; "Total Score"]).
  - repeat constructor.
  - simpl. lia.
Defined.

(** ** Rows and files *)




Lemma extract_job_criteria_returned (env : Env) (job_description : string)
    (w w' : list event) (response : Criteria) :
  extract_job_criteria env job_description w = (inr response, w') ->
  criteria response <> [].
Proof.
  unfold extract_job_criteria, bind. rewrite call_gpt_api_run.
  destruct (OPENAI_API_KEY env); [|discriminate]. cbv zeta.
  destruct (parse env w MODEL _ CriteriaFormat) as [e|[[cs]|]];
    [discriminate| |discriminate].
  cbn [criteria]. destruct cs as [|c cs]; cbn [List.length Nat.eqb].
  - discriminate.
  - unfold ret. intros E. injection E as <- _. discriminate.
Qed.

Lemma extract_job_criteria_raised (env : Env) (job_description : string)
    (w w' : list event) (status : Z) (detail : string) :
  extract_job_criteria env job_description w
  = (inl (HTTPException status detail), w') ->
  (status = 500 /\ detail = llm_failed)
  \/ (status = 400 /\ detail = invalid_job_description).
Proof.
  unfold extract_job_criteria, bind. rewrite call_gpt_api_run.
  destruct (OPENAI_API_KEY env); [|discriminate]. cbv zeta.
  destruct (parse env w MODEL _ CriteriaFormat) as [e|[[cs]|]].
  - intros E. injection E as <- <- _. now left.
  - cbn [criteria]. destruct cs as [|c cs]; cbn [List.length Nat.eqb].
    + unfold logging_error, emit, raise.
      intros E. injection E as <- <- _. now right.
    + discriminate.
  - discriminate.
Qed.

(** X19.  A response of the [extract_criteria] endpoint always holds
    one criterion or more.  An [HTTPException] it raises has status
    400, for an unsupported file or an empty list of criteria, or
    status 500, for a parser or provider failure, each with its fixed
    detail. *)
Theorem extract_criteria_outcomes (env : Env)
    (job_description_file : UploadFile) (w : list event) :
  (forall response,
      result (extract_criteria env job_description_file w) = inr response ->
      criteria response <> [])
  /\ (forall status detail,
        result (extract_criteria env job_description_file w)
        = inl (HTTPException status detail) ->
        (status = 400
         /\ (detail = unsupported_format
             \/ detail = invalid_job_description))
        \/ (status = 500
            /\ (detail = pdf_failed \/ detail = docx_failed
                \/ detail = llm_failed))).
Proof.
  rewrite extract_criteria_run. unfold result.
  destruct (extract_text_from_file env _ _ _) as [[e|text] w1] eqn:T.
  - split; [discriminate|]. cbn [fst]. intros status detail E.
    injection E as ->.
    assert (result (extract_text_from_file env (read job_description_file)
                      (filename job_description_file)
                      (w ++ [Logged INFO
                               ("Processing job description from file: "
                                ++ filename job_description_file)])%list)
            = inl (HTTPException status detail)) as R
      by (unfold result; now rewrite T).
    clear T. unfold result in R.
    destruct (extract_text_from_file_run env (read job_description_file)
                (filename job_description_file)
                (w ++ [Logged INFO
                         ("Processing job description from file: "
                          ++ filename job_description_file)])%list)
      as [[_ E]|[[_ [_ E]]|[_ [_ E]]]]; rewrite E in R.
    + rewrite extract_text_from_pdf_run in R.
      destruct (PdfReader env _); [|discriminate].
      injection R as <- <-. right. auto.
    + rewrite extract_text_from_docx_run in R.
      destruct (Document env _); [|discriminate].
      injection R as <- <-. right. auto.
    + injection R as <- <-. left. auto.
  - destruct (extract_job_criteria env text w1) as [[e|response] w2] eqn:J;
      cbn [fst].
    + split; [discriminate|]. intros status detail E. injection E as ->.
      apply extract_job_criteria_raised in J.
      destruct J as [[-> ->]|[-> ->]]; [right | left]; auto.
    + split; [|discriminate]. intros r E. injection E as <-.
      now apply extract_job_criteria_returned in J.
Qed.

Lemma extract_criteria_outcomes_witness :
  (forall response,
      result
        (extract_criteria
           (Script.env Script.page Script.page Script.key
              (Returned (Some {| criteria := [] |})) [])
           (Script.pdf "list.pdf") [])
      = inr response ->
      criteria response <> [])
  /\ (forall status detail,
        result
          (extract_criteria
             (Script.env Script.page Script.page Script.key
                (Returned (Some {| criteria := [] |})) [])
             (Script.pdf "list.pdf") [])
        = inl (HTTPException status detail) ->
        (status = 400
         /\ (detail = unsupported_format
             \/ detail = invalid_job_description))
        \/ (status = 500
            /\ (detail = pdf_failed \/ detail = docx_failed
                \/ detail = llm_failed))).
Proof.
  apply (extract_criteria_outcomes
           (Script.env Script.page Script.page Script.key
              (Returned (Some {| criteria := [] |})) [])
           (Script.pdf "list.pdf") []).
Defined.
